(** * tmux-mcp: the command-execution lifecycle of [src/tmux.ts]

  A shallow embedding of the command dispatcher ([executeCommand]), the
  execution tracker ([checkCommandStatus], [cleanupOldCommands]) and the
  shell adapter ([setShellConfig], [getEndMarkerText]).

  - A JavaScript string is the list of its UTF-16 code units ([list N]).
  - A JavaScript number is an IEEE-754 binary64 value ([float]).
  - An optional field or parameter ([x?: T]) is an [option T]; [None] is
    [undefined].
  - The module-level variables [activeCommands] and [shellConfig], together
    with the log of the [tmux] command lines handed to the operating system,
    form the [World]; every operation is a state transformer on it that
    either returns a value or throws.
  - The operating system is a function from the command lines run so far
    and the next command line to what that command line prints or how it
    fails; the values of [uuidv4()] and [new Date()] are arguments of the
    operation that asks for them.
  - An operation runs from its first statement to its last: what another
    operation could do while this one waits at an [await] is not modelled. *)

From Stdlib Require Import ZArith String Ascii Floats Lia.
From Stdlib Require DecimalString.
From stdpp Require Import base option list gmap.

Local Open Scope Z_scope.

(** ** JavaScript strings and the built-ins the source calls *)

Module JS.

Abbreviation jsstring := (list N).

(** A string literal of the source (Basic Latin only). *)
Definition lit (s : string) : jsstring :=
  map N_of_ascii (list_ascii_of_string s).

Definition LF : N := 10%N.

(** [s.length] as a number. *)
Definition len (s : jsstring) : Z := Z.of_nat (length s).

(** Does [searchString] occur in [s] at position 0? *)
Fixpoint startsWith (searchString s : jsstring) : bool :=
  match searchString, s with
  | [], _ => true
  | _ :: _, [] => false
  | p :: searchString', c :: s' => (p =? c)%N && startsWith searchString' s'
  end.

(** [s.lastIndexOf(searchString)]: the greatest position at which
    [searchString] occurs, [-1] when there is none.  [k] is the position of
    the head of [s] in the whole string. *)
Fixpoint lastIndexOf_from (searchString s : jsstring) (k : Z) : Z :=
  match s with
  | [] => if startsWith searchString [] then k else -1
  | _ :: s' =>
      let later := lastIndexOf_from searchString s' (k + 1) in
      if 0 <=? later then later
      else if startsWith searchString s then k else -1
  end.

Definition lastIndexOf (s searchString : jsstring) : Z :=
  lastIndexOf_from searchString s 0.

(** [s.indexOf(searchString)]: the least such position, or [-1]. *)
Fixpoint indexOf_from (searchString s : jsstring) (k : Z) : Z :=
  if startsWith searchString s then k
  else match s with
       | [] => -1
       | _ :: s' => indexOf_from searchString s' (k + 1)
       end.

Definition indexOf (s searchString : jsstring) : Z :=
  indexOf_from searchString s 0.

(** [s.substring(start, end)]: both arguments are clamped to
    [0 .. s.length] and swapped when [start > end]. *)
Definition substring (s : jsstring) (start end_ : Z) : jsstring :=
  let a := Z.min (Z.max start 0) (len s) in
  let b := Z.min (Z.max end_ 0) (len s) in
  let from := Z.min a b in
  let to := Z.max a b in
  take (Z.to_nat (to - from)) (drop (Z.to_nat from) s).

(** [s.substring(start)]: [end] defaults to [s.length]. *)
Definition substring_from (s : jsstring) (start : Z) : jsstring :=
  substring s start (len s).

(** WhiteSpace and LineTerminator code points of ECMAScript, the set
    stripped by [trim] and skipped by [parseInt]. *)
Definition isWhiteSpace (c : N) : bool :=
  (existsb (N.eqb c)
     [9; 10; 11; 12; 13; 32; 160; 5760; 8232; 8233; 8239; 8287; 12288; 65279]
   || ((8192 <=? c) && (c <=? 8202)))%N.

Fixpoint trimStart (s : jsstring) : jsstring :=
  match s with
  | [] => []
  | c :: s' => if isWhiteSpace c then trimStart s' else s
  end.

Definition trimEnd (s : jsstring) : jsstring :=
  rev (trimStart (rev s)).

Definition trim (s : jsstring) : jsstring := trimEnd (trimStart s).

(** [s.split(sep)] for a separator of one code unit. *)
Fixpoint split (s : jsstring) (sep : N) : list jsstring :=
  match s with
  | [] => [[]]
  | c :: s' =>
      if (c =? sep)%N then [] :: split s' sep
      else match split s' sep with
           | piece :: pieces => (c :: piece) :: pieces
           | [] => [[c]]
           end
  end.

(** The regular-expression class [\d]. *)
Definition isDigit (c : N) : bool := ((48 <=? c) && (c <=? 57))%N.

Fixpoint takeDigits (s : jsstring) : jsstring :=
  match s with
  | [] => []
  | c :: s' => if isDigit c then c :: takeDigits s' else []
  end.

(** The value of a string of decimal digits, most significant first. *)
Definition digitsValue (ds : jsstring) : Z :=
  fold_left (fun acc c => 10 * acc + (Z.of_N c - 48)) ds 0.

(** The number nearest to an integer (ties to even). *)
Definition number_of_Z (z : Z) : float :=
  SF2Prim (binary_normalize prec emax z 0 false).

(** [parseInt(s, 10)]: leading white space, an optional sign, then the
    longest run of decimal digits; [NaN] when there is no digit. *)
Definition parseInt10 (s : jsstring) : float :=
  let s1 := trimStart s in
  let '(negative, s2) :=
    match s1 with
    | 45%N :: rest => (true, rest)
    | 43%N :: rest => (false, rest)
    | _ => (false, s1)
    end in
  match takeDigits s2 with
  | [] => nan
  | ds => let v := number_of_Z (digitsValue ds) in
          if negative then (- v)%float else v
  end.

(** [a === b] on numbers. *)
Definition strictEq (a b : float) : bool := PrimFloat.eqb a b.

(** [s.toLowerCase()].  Basic Latin capitals and U+212A KELVIN SIGN are the
    only code points whose lower-case mapping is a Basic Latin letter; every
    other code unit is kept, so the result lies in a list of Basic Latin
    words exactly when the real lower-casing does. *)
Definition lowerUnit (c : N) : N :=
  (if (65 <=? c) && (c <=? 90) then c + 32
   else if c =? 8490 then 107
   else c)%N.

Definition toLowerCase (s : jsstring) : jsstring := map lowerUnit s.

(** [arr.includes(x)] on an array of strings. *)
Definition includes (arr : list jsstring) (x : jsstring) : bool :=
  bool_decide (x ∈ arr).

(** [s.replace(/'/g, "'\\''")]. *)
Definition escapeQuotes (s : jsstring) : jsstring :=
  flat_map (fun c => if (c =? 39)%N then lit "'\''" else [c]) s.

(** The strings yielded by [for (const char of s)]: one per code point, a
    surrogate pair staying together. *)
Definition isHighSurrogate (c : N) : bool := ((55296 <=? c) && (c <=? 56319))%N.
Definition isLowSurrogate (c : N) : bool := ((56320 <=? c) && (c <=? 57343))%N.

Fixpoint chars (s : jsstring) : list jsstring :=
  match s with
  | [] => []
  | c :: s' =>
      match s' with
      | d :: s'' =>
          if isHighSurrogate c && isLowSurrogate d then [c; d] :: chars s''
          else [c] :: chars s'
      | [] => [[c]]
      end
  end.

(** [`${n}`] for a non-negative integer below 1e21. *)
Definition decimal (n : N) : jsstring :=
  lit (DecimalString.NilZero.string_of_uint (N.to_uint n)).

(** A value used as a condition. *)
Definition truthy (b : option bool) : bool := default false b.

(** [a || b] on optional booleans. *)
Definition or (a b : option bool) : option bool :=
  if truthy a then a else b.

End JS.

Import JS.

(** ** Data model *)

Inductive Status := pending | completed | error.

(** A [Date] is its time value: milliseconds since the epoch, as a number. *)
Abbreviation Date := float.

Record CommandExecution := {
  id : jsstring;
  paneId : jsstring;
  command : jsstring;
  status : Status;
  startTime : Date;
  result : option jsstring;
  exitCode : option float;
  rawMode : option bool
}.

Inductive ShellType := bash | zsh | fish.

Record ShellConfig := { type : ShellType }.

(** The string a [ShellType] is at run time. *)
Definition shellName (t : ShellType) : jsstring :=
  match t with
  | bash => lit "bash"
  | zsh => lit "zsh"
  | fish => lit "fish"
  end.

(** A thrown [Error]. *)
Record Error := { message : jsstring }.

(** What [child_process.exec] gives back for a command line. *)
Inductive ExecOutcome :=
| Stdout (stdout : jsstring)
| ExecFailed (error_message : jsstring).

(** The operating system: the outcome of a command line, given the command
    lines run before it. *)
Definition OS := list jsstring -> jsstring -> ExecOutcome.

(** The module state: the tracking map, the shell configuration, and the
    command lines handed to the operating system so far. *)
Record World := {
  activeCommands : gmap jsstring CommandExecution;
  shellConfig : ShellConfig;
  spawned : list jsstring
}.

(** ** Operations as state transformers that return or throw *)

Inductive Completion (A : Type) :=
| Return (value : A)
| Throw (exn : Error).
Arguments Return {A} value.
Arguments Throw {A} exn.

Definition M (A : Type) : Type := World -> World * Completion A.

Definition ret {A} (a : A) : M A := fun w => (w, Return a).

Definition throw {A} (e : Error) : M A := fun w => (w, Throw e).

Definition bind {A B} (m : M A) (k : A -> M B) : M B :=
  fun w =>
    match m w with
    | (w', Return a) => k a w'
    | (w', Throw e) => (w', Throw e)
    end.

Notation "'let!' x ':=' m 'in' k" := (bind m (fun x => k))
  (at level 10, x pattern, m at level 100, k at level 200).
Notation "m ';;' k" := (bind m (fun _ => k))
  (at level 100, k at level 200, right associativity).

(** [for (const x of xs) { await body(x) }] *)
Fixpoint forOf {A} (xs : list A) (body : A -> M unit) : M unit :=
  match xs with
  | [] => ret tt
  | x :: xs' => body x ;; forOf xs' body
  end.

Definition readCommands : M (gmap jsstring CommandExecution) :=
  fun w => (w, Return (activeCommands w)).

Definition writeCommands (f : gmap jsstring CommandExecution -> gmap jsstring CommandExecution) : M unit :=
  fun w => ({| activeCommands := f (activeCommands w);
               shellConfig := shellConfig w;
               spawned := spawned w |}, Return tt).

(** Field assignments on a record object. *)
Definition set_result (r : jsstring) (c : CommandExecution) : CommandExecution :=
  {| id := id c; paneId := paneId c; command := command c; status := status c;
     startTime := startTime c; result := Some r; exitCode := exitCode c;
     rawMode := rawMode c |}.

Definition set_status (s : Status) (c : CommandExecution) : CommandExecution :=
  {| id := id c; paneId := paneId c; command := command c; status := s;
     startTime := startTime c; result := result c; exitCode := exitCode c;
     rawMode := rawMode c |}.

Definition set_exitCode (n : float) (c : CommandExecution) : CommandExecution :=
  {| id := id c; paneId := paneId c; command := command c; status := status c;
     startTime := startTime c; result := result c; exitCode := Some n;
     rawMode := rawMode c |}.

(** An assignment to a field of the object stored under [commandId]: the map
    holds the object itself, so the tracked record changes with it. *)
Definition mutate (commandId : jsstring) (c : CommandExecution) : M unit :=
  writeCommands (insert commandId c).

Definition Status_eqb (a b : Status) : bool :=
  match a, b with
  | pending, pending | completed, completed | error, error => true
  | _, _ => false
  end.

(** *** Shell adapter *)

Definition validShells : list ShellType := [bash; zsh; fish].

Definition setShellConfig (config_type : jsstring) : M unit :=
  fun w =>
    let chosen :=
      match find (fun t => bool_decide (shellName t = config_type)) validShells with
      | Some t => {| type := t |}
      | None => {| type := bash |}
      end in
    ({| activeCommands := activeCommands w; shellConfig := chosen;
        spawned := spawned w |}, Return tt).

Definition startMarkerText : jsstring := lit "TMUX_MCP_START".
Definition endMarkerPrefix : jsstring := lit "TMUX_MCP_DONE_".

Definition getEndMarkerText : M jsstring :=
  fun w =>
    (w, Return (match type (shellConfig w) with
                | fish => endMarkerPrefix ++ lit "$status"
                | _ => endMarkerPrefix ++ lit "$?"
                end)).

(** The error [executeTmux] throws when the command line fails. *)
Definition failedToExecute (error_message : jsstring) : Error :=
  {| message := lit "Failed to execute tmux command: " ++ error_message |}.

Section Operations.

Variable os : OS.

(** *** Multiplexer gateway *)

Definition executeTmux (tmuxCommand : jsstring) : M jsstring :=
  fun w =>
    let line := lit "tmux " ++ tmuxCommand in
    let w' := {| activeCommands := activeCommands w;
                 shellConfig := shellConfig w;
                 spawned := spawned w ++ [line] |} in
    match os (spawned w) line with
    | Stdout stdout => (w', Return (trim stdout))
    | ExecFailed error_message => (w', Throw (failedToExecute error_message))
    end.

Definition capturePaneContent (paneId : jsstring) (lines : N) (includeColors : bool) : M jsstring :=
  let colorFlag := if includeColors then lit "-e" else [] in
  executeTmux (lit "capture-pane -p " ++ colorFlag ++ lit " -t '" ++ paneId
               ++ lit "' -S -" ++ decimal lines ++ lit " -E -").

(** *** Command dispatcher *)

Definition VALID_SHELLS : list jsstring :=
  map lit ["bash"; "zsh"; "fish"; "sh"; "dash"; "ksh"; "tcsh"; "csh"; "ssh"; "mosh"]%string.

Definition specialKeys : list jsstring :=
  map lit ["Up"; "Down"; "Left"; "Right"; "Escape"; "Tab"; "Enter"; "Space";
           "BSpace"; "Delete"; "Home"; "End"; "PageUp"; "PageDown";
           "F1"; "F2"; "F3"; "F4"; "F5"; "F6"; "F7"; "F8"; "F9"; "F10"; "F11"; "F12"]%string.

(** The message of the error thrown for a pane that runs no shell. *)
Definition notAShell (paneId currentCommand : jsstring) : Error :=
  {| message := lit "Cannot execute command: pane " ++ paneId ++ lit " is running '"
                ++ currentCommand
                ++ lit "', not a shell. Use rawMode for interactive applications." |}.

(** The [tmux] arguments of line 269. *)
Definition currentCommandQuery (paneId : jsstring) : jsstring :=
  let format := lit "#{pane_current_command}" in
  lit "display-message -p -t '" ++ paneId ++ lit "' '" ++ format ++ lit "'".

(** Lines 267-274: the shell check, made only for commands that are neither
    raw nor [noEnter]. *)
Definition checkPaneRunsShell (paneId : jsstring) (rawMode noEnter : option bool) : M unit :=
  if negb (truthy rawMode) && negb (truthy noEnter) then
    let! currentCommand := executeTmux (currentCommandQuery paneId) in
    if negb (includes VALID_SHELLS (toLowerCase currentCommand)) then
      throw (notAShell paneId currentCommand)
    else ret tt
  else ret tt.

(** Lines 280-287: the record stored at submission. *)
Definition newExecution (commandId paneId command : jsstring) (now : Date)
    (rawMode noEnter : option bool) : CommandExecution :=
  {| id := commandId; paneId := paneId; command := command; status := pending;
     startTime := now; result := None; exitCode := None;
     rawMode := JS.or rawMode noEnter |}.

(** Lines 290-316: the keys sent to the pane. *)
Definition sendCommand (paneId command : jsstring) (rawMode noEnter : option bool) : M unit :=
  if truthy noEnter then
    if includes specialKeys command then
      executeTmux (lit "send-keys -t '" ++ paneId ++ lit "' " ++ command) ;; ret tt
    else
      forOf (chars command) (fun char =>
        executeTmux (lit "send-keys -t '" ++ paneId ++ lit "' '"
                     ++ escapeQuotes char ++ lit "'") ;; ret tt)
  else if truthy rawMode then
    executeTmux (lit "send-keys -t '" ++ paneId ++ lit "' '"
                 ++ escapeQuotes command ++ lit "' Enter") ;; ret tt
  else
    let escapedCommand := escapeQuotes command in
    executeTmux (lit "send-keys -t '" ++ paneId ++ lit "' '__mcp_start' Enter '"
                 ++ escapedCommand ++ lit "' Enter") ;; ret tt.

(** [executeCommand(paneId, command, rawMode, noEnter)].  [uuid] is the value
    [uuidv4()] produces in this call and [now] the value of [new Date()]. *)
Definition executeCommand (uuid : jsstring) (now : Date)
    (paneId command : jsstring) (rawMode noEnter : option bool) : M jsstring :=
  checkPaneRunsShell paneId rawMode noEnter ;;
  let commandId := uuid in
  writeCommands (insert commandId (newExecution commandId paneId command now rawMode noEnter)) ;;
  sendCommand paneId command rawMode noEnter ;;
  ret commandId.

(** *** Execution tracker *)

Definition rawModeAdvisory : jsstring :=
  lit "Status tracking unavailable for rawMode commands. Use capture-pane to monitor interactive apps instead.".

Definition notCaptured : jsstring :=
  lit "Command output could not be captured properly".

(** [new RegExp(`${endMarkerPrefix}(\\d+)`)] tried at the head of [s]: the
    first capture group of the match, when there is one. *)
Definition endMarkerRegex_at (s : jsstring) : option jsstring :=
  if startsWith endMarkerPrefix s then
    match takeDigits (drop (length endMarkerPrefix) s) with
    | [] => None
    | digits => Some digits
    end
  else None.

(** [s.match(endMarkerRegex)]: the leftmost match; [None] is [null]. *)
Fixpoint endMarkerRegex_match (s : jsstring) : option jsstring :=
  match endMarkerRegex_at s with
  | Some digits => Some digits
  | None =>
      match s with
      | [] => None
      | _ :: s' => endMarkerRegex_match s'
      end
  end.

(** Lines 354-358: the output between the markers. *)
Definition extractOutput (content : jsstring) (startIndex endIndex : Z) : jsstring :=
  let outputStart := startIndex + len startMarkerText in
  let outputContent := trim (substring content outputStart endIndex) in
  trim (substring_from outputContent (indexOf outputContent [LF] + 1)).

(** Lines 329-364: what a status check does to a pending record once the
    pane content is captured.  [None] when the object is left as it is. *)
Definition resolve (command : CommandExecution) (content : jsstring) : option CommandExecution :=
  if truthy (rawMode command) then
    Some (set_result rawModeAdvisory command)
  else
    let startIndex := lastIndexOf content startMarkerText in
    let endIndex := lastIndexOf content endMarkerPrefix in
    if (startIndex =? -1) || (endIndex =? -1) || (endIndex <=? startIndex) then
      Some (set_result notCaptured command)
    else
      let endLine := hd [] (split (substring_from content endIndex) LF) in
      match endMarkerRegex_match endLine with
      | Some digits =>
          let exitCode := parseInt10 digits in
          let command := set_status (if strictEq exitCode 0 then completed else error) command in
          let command := set_exitCode exitCode command in
          Some (set_result (extractOutput content startIndex endIndex) command)
      | None => None
      end.

Definition checkCommandStatus (commandId : jsstring) : M (option CommandExecution) :=
  let! commands := readCommands in
  match commands !! commandId with
  | None => ret None
  | Some command =>
      if negb (Status_eqb (status command) pending) then ret (Some command)
      else
        let! content := capturePaneContent (paneId command) 1000 false in
        match resolve command content with
        | Some command' => mutate commandId command' ;; ret (Some command')
        | None => ret (Some command)
        end
  end.

Definition getCommand (commandId : jsstring) : M (option CommandExecution) :=
  let! commands := readCommands in ret (commands !! commandId).

(** The tracked ids; the order of the array is not modelled. *)
Definition getActiveCommandIds : M (gset jsstring) :=
  let! commands := readCommands in ret (dom commands).

Definition ageMinutes (now : Date) (command : CommandExecution) : float :=
  ((now - startTime command) / (1000 * 60))%float.

(** The test of line 384. *)
Definition isStale (now : Date) (maxAgeMinutes : float) (command : CommandExecution) : bool :=
  negb (Status_eqb (status command) pending)
  && PrimFloat.ltb maxAgeMinutes (ageMinutes now command).

(** [cleanupOldCommands(maxAgeMinutes = 60)]; [now] is the value of
    [new Date()].  Deleting the entry just visited does not disturb the
    iteration, so the loop is a fold over the entries present at its start. *)
Definition cleanupOldCommands (now : Date) (maxAgeMinutes : option float) : M unit :=
  let maxAgeMinutes := default 60%float maxAgeMinutes in
  let! commands := readCommands in
  forOf (map_to_list commands) (fun '(id, command) =>
    if isStale now maxAgeMinutes command then writeCommands (delete id) else ret tt).

End Operations.

(** ** The operations a caller can invoke *)

Inductive Operation :=
| ExecuteCommand (uuid : jsstring) (now : Date) (paneId command : jsstring)
    (rawMode noEnter : option bool)
| CheckCommandStatus (commandId : jsstring)
| GetCommand (commandId : jsstring)
| GetActiveCommandIds
| CleanupOldCommands (now : Date) (maxAgeMinutes : option float)
| SetShellConfig (config_type : jsstring)
| GetEndMarkerText.

(** The world an operation leaves behind, whether it returns or throws. *)
Definition perform (os : OS) (op : Operation) (w : World) : World :=
  match op with
  | ExecuteCommand uuid now paneId command rawMode noEnter =>
      fst (executeCommand os uuid now paneId command rawMode noEnter w)
  | CheckCommandStatus commandId => fst (checkCommandStatus os commandId w)
  | GetCommand commandId => fst (getCommand commandId w)
  | GetActiveCommandIds => fst (getActiveCommandIds w)
  | CleanupOldCommands now maxAgeMinutes => fst (cleanupOldCommands now maxAgeMinutes w)
  | SetShellConfig config_type => fst (setShellConfig config_type w)
  | GetEndMarkerText => fst (getEndMarkerText w)
  end.

(** [n] successive status checks of one id. *)
Definition poll (os : OS) (commandId : jsstring) (n : nat) (w : World) : World :=
  Nat.iter n (perform os (CheckCommandStatus commandId)) w.

(** ** Vocabulary of the statements *)

(** [pat] occurs in [s] at position [k]. *)
Definition occursAt (pat s : jsstring) (k : Z) : Prop :=
  exists before after, s = before ++ pat ++ after /\ len before = k.

(** [k] is the position of the last occurrence of [pat] in [s], or [-1] when
    [pat] does not occur in [s]. *)
Definition lastOccurrence (pat s : jsstring) (k : Z) : Prop :=
  (k = -1 /\ forall j, ~ occursAt pat s j)
  \/ (occursAt pat s k /\ forall j, k < j -> ~ occursAt pat s j).

(** The digits that follow the end-marker prefix standing at [endIndex]. *)
Definition digitsAfterEndMarker (content : jsstring) (endIndex : Z) : jsstring :=
  takeDigits (drop (Z.to_nat endIndex + length endMarkerPrefix) content).

(** The number [x] is the integer [z]. *)
Definition isInteger (x : float) (z : Z) : Prop :=
  match Prim2SF x with
  | S754_zero _ => z = 0
  | S754_finite negative m e =>
      (if negative then Zneg m else Zpos m) * 2 ^ Z.max e 0 = z * 2 ^ Z.max (- e) 0
  | _ => False
  end.

(** A command line that sends keys to a pane. *)
Definition isSendKeys (line : jsstring) : bool :=
  startsWith (lit "tmux send-keys ") line.

(** Every command line of [sent], run in this order after the command lines
    of [log], succeeds. *)
Fixpoint allSucceed (os : OS) (log sent : list jsstring) : Prop :=
  match sent with
  | [] => True
  | line :: sent' =>
      (exists stdout, os log line = Stdout stdout)
      /\ allSucceed os (log ++ [line]) sent'
  end.

(** [run] is the outcome, from the world [w], of a computation that only
    sends keys: the tracking map and the shell configuration are as in [w],
    the command lines spawned are all [send-keys], and either every one of
    them succeeded and the computation returned, or all but the last
    succeeded, the last one failed, and its failure was thrown. *)
Definition transmitted (os : OS) (w : World) (run : World * Completion unit) : Prop :=
  activeCommands run.1 = activeCommands w
  /\ shellConfig run.1 = shellConfig w
  /\ exists sent,
      spawned run.1 = spawned w ++ sent
      /\ Forall (fun line => isSendKeys line = true) sent
      /\ match run.2 with
         | Return _ => allSucceed os (spawned w) sent
         | Throw e =>
             exists before line error_message,
               sent = before ++ [line]
               /\ allSucceed os (spawned w) before
               /\ os (spawned w ++ before) line = ExecFailed error_message
               /\ e = failedToExecute error_message
         end.

(** Does the loop of [cleanupOldCommands] over [entries] delete the id [k]? *)
Definition evicts (now : Date) (threshold : float) (k : jsstring)
    (entries : list (jsstring * CommandExecution)) : bool :=
  existsb (fun '(commandId, c) => bool_decide (commandId = k) && isStale now threshold c)
    entries.

(** The invariant of the data model as the specification words it. *)
Definition pendingIsBare (w : World) : Prop :=
  forall commandId c,
    activeCommands w !! commandId = Some c ->
    status c = pending ->
    exitCode c = None /\ result c = None.

(** The invariant the operations keep: a pending record has no exit code,
    and its result, when set, is one of the two placeholder messages. *)
Definition pendingIsUnresolved (w : World) : Prop :=
  forall commandId c,
    activeCommands w !! commandId = Some c ->
    status c = pending ->
    exitCode c = None
    /\ (result c = None \/ result c = Some rawModeAdvisory \/ result c = Some notCaptured).

(** The output of a resolved command as the specification words it: the text
    strictly between the end of the start marker and the start of the end
    marker, trimmed, its first line discarded, the rest trimmed again. *)
Fixpoint dropFirstLine (s : jsstring) : jsstring :=
  match s with
  | [] => []
  | c :: s' => if (c =? LF)%N then s' else dropFirstLine s'
  end.

Definition spec_output (content : jsstring) (startIndex endIndex : Z) : jsstring :=
  let outputStart := startIndex + len startMarkerText in
  let between := take (Z.to_nat (endIndex - outputStart)) (drop (Z.to_nat outputStart) content) in
  trim (dropFirstLine (trim between)).

(** ** Sample worlds *)

(** An operating system on which every command line prints [stdout]. *)
Definition printing (stdout : jsstring) : OS := fun _ _ => Stdout stdout.

(** An operating system on which the query for the pane's current command
    prints [currentCommand] and every other command line fails. *)
Definition sendsFail (paneId currentCommand : jsstring) : OS :=
  fun _ line =>
    if bool_decide (line = lit "tmux " ++ currentCommandQuery paneId)
    then Stdout currentCommand
    else ExecFailed (lit "no server running").

Definition lines (ls : list string) : jsstring :=
  match map lit ls with
  | [] => []
  | l :: rest => foldl (fun acc l => acc ++ [LF] ++ l) l rest
  end.

Definition sampleExecution (rawMode : option bool) : CommandExecution :=
  newExecution (lit "c-1") (lit "%1") (lit "echo hi") 1000%float rawMode None.

Definition sampleWorld (rawMode : option bool) : World :=
  {| activeCommands := {[ lit "c-1" := sampleExecution rawMode ]};
     shellConfig := {| type := bash |};
     spawned := [] |}.

(** An operating system on which every command line fails. *)
Definition unreachable : OS := fun _ _ => ExecFailed (lit "no server running").

Definition emptyWorld : World :=
  {| activeCommands := ∅; shellConfig := {| type := bash |}; spawned := [] |}.

Definition finishedExecution : CommandExecution :=
  set_status completed (sampleExecution None).

Definition finishedWorld : World :=
  {| activeCommands := {[ lit "c-1" := finishedExecution ]};
     shellConfig := {| type := bash |};
     spawned := [] |}.

(** The captured content of the scenario of the specification. *)
Definition scenario : jsstring :=
  lines ["...TMUX_MCP_START"; "echo hi"; "hi"; "TMUX_MCP_DONE_0"; "$ "]%string.

(** A pane that still shows an earlier, failed run above the current one. *)
Definition twoRuns : jsstring :=
  lines ["TMUX_MCP_START"; "$ false"; "TMUX_MCP_DONE_1"; "$ ";
         "TMUX_MCP_START"; "$ echo ok"; "ok"; "TMUX_MCP_DONE_0"; "$ "]%string.

(** A pane after a command that was not found. *)
Definition notFound : jsstring :=
  lines ["TMUX_MCP_START"; "$ frob"; "bash: frob: command not found";
         "TMUX_MCP_DONE_127"; "$ "]%string.

(** A pane whose end marker is followed by no digit. *)
Definition noDigits : jsstring :=
  lines ["TMUX_MCP_START"; "$ make"; "TMUX_MCP_DONE_x"]%string.

(** A pane after a command that printed nothing. *)
Definition silentCommand : jsstring :=
  lines ["TMUX_MCP_START"; "$ true"; "TMUX_MCP_DONE_0"; "$ "]%string.

(** ** Topology queries and entity operations *)

Module TmuxSession.
Record t := {
  id : jsstring;
  name : option jsstring;
  attached : bool;
  windows : float
}.
End TmuxSession.

Module TmuxWindow.
Record t := {
  id : jsstring;
  name : option jsstring;
  active : bool;
  sessionId : jsstring
}.
End TmuxWindow.

Module TmuxPane.
Record t := {
  id : jsstring;
  windowId : jsstring;
  active : bool;
  currentCommand : option jsstring;
  cwd : option jsstring;
  title : option jsstring
}.
End TmuxPane.

Definition COLON : N := 58%N.
Definition BAR : N := 124%N.
Definition DQUOTE : N := 34%N.

(** [const [a, b, ...] = line.split(sep)]: the first element is always
    there; a later one is [undefined] when the line has fewer fields. *)
Definition firstField (fields : list jsstring) : jsstring := hd [] fields.

(** [parseInt(x, 10)] for a value that may be [undefined]. *)
Definition parseInt10_of (x : option jsstring) : float :=
  parseInt10 (default (lit "undefined") x).

(** [x === '1'] *)
Definition isOne (x : option jsstring) : bool := bool_decide (x = Some (lit "1")).

(** The arrow functions of lines 90, 122 and 142. *)
Definition sessionOfLine (line : jsstring) : TmuxSession.t :=
  let fields := split line COLON in
  {| TmuxSession.id := firstField fields;
     TmuxSession.name := fields !! 1%nat;
     TmuxSession.attached := isOne (fields !! 2%nat);
     TmuxSession.windows := parseInt10_of (fields !! 3%nat) |}.

Definition windowOfLine (sessionId line : jsstring) : TmuxWindow.t :=
  let fields := split line COLON in
  {| TmuxWindow.id := firstField fields;
     TmuxWindow.name := fields !! 1%nat;
     TmuxWindow.active := isOne (fields !! 2%nat);
     TmuxWindow.sessionId := sessionId |}.

Definition paneOfLine (windowId line : jsstring) : TmuxPane.t :=
  let fields := split line BAR in
  {| TmuxPane.id := firstField fields;
     TmuxPane.windowId := windowId;
     TmuxPane.currentCommand := fields !! 2%nat;
     TmuxPane.cwd := fields !! 3%nat;
     TmuxPane.title := fields !! 1%nat;
     TmuxPane.active := isOne (fields !! 4%nat) |}.

(** [try { body } catch (error) { handler }] *)
Definition tryCatch {A} (body : M A) (handler : Error -> M A) : M A :=
  fun w =>
    match body w with
    | (w', Return a) => (w', Return a)
    | (w', Throw e) => handler e w'
    end.

Section Topology.

Variable os : OS.

Definition isTmuxRunning : M bool :=
  tryCatch
    (executeTmux os (lit "list-sessions -F '#{session_name}'") ;; ret true)
    (fun _ => ret false).

Definition listSessions : M (list TmuxSession.t) :=
  let format :=
    lit "#{session_id}:#{session_name}:#{?session_attached,1,0}:#{session_windows}" in
  let! output := executeTmux os (lit "list-sessions -F '" ++ format ++ lit "'") in
  match output with
  | [] => ret []
  | _ => ret (map sessionOfLine (split output LF))
  end.

Definition findSessionByName (name : jsstring) : M (option TmuxSession.t) :=
  tryCatch
    (let! sessions := listSessions in
     ret (find (fun session => bool_decide (TmuxSession.name session = Some name)) sessions))
    (fun _ => ret None).

Definition listWindows (sessionId : jsstring) : M (list TmuxWindow.t) :=
  let format := lit "#{window_id}:#{window_name}:#{?window_active,1,0}" in
  let! output :=
    executeTmux os (lit "list-windows -t '" ++ sessionId ++ lit "' -F '" ++ format ++ lit "'") in
  match output with
  | [] => ret []
  | _ => ret (map (windowOfLine sessionId) (split output LF))
  end.

Definition listPanes (windowId : jsstring) : M (list TmuxPane.t) :=
  let format :=
    lit "#{pane_id}|#{pane_title}|#{pane_current_command}|#{pane_current_path}|#{?pane_active,1,0}" in
  let! output :=
    executeTmux os (lit "list-panes -t '" ++ windowId ++ lit "' -F '" ++ format ++ lit "'") in
  match output with
  | [] => ret []
  | _ => ret (map (paneOfLine windowId) (split output LF))
  end.

Definition listActivePanes : M (list TmuxPane.t) :=
  let! sessions := listSessions in
  match find TmuxSession.attached sessions with
  | None => ret []
  | Some activeSession =>
      let! windows := listWindows (TmuxSession.id activeSession) in
      match find TmuxWindow.active windows with
      | None => ret []
      | Some activeWindow => listPanes (TmuxWindow.id activeWindow)
      end
  end.

Definition createSession (name : jsstring) : M (option TmuxSession.t) :=
  executeTmux os (lit "new-session -d -s " ++ [DQUOTE] ++ name ++ [DQUOTE]) ;;
  findSessionByName name.

Definition createWindow (sessionId name : jsstring) : M (option TmuxWindow.t) :=
  let! output :=
    executeTmux os (lit "new-window -t '" ++ sessionId ++ lit "' -n '" ++ name ++ lit "'") in
  let! windows := listWindows sessionId in
  ret (find (fun window => bool_decide (TmuxWindow.name window = Some name)) windows).

Definition killSession (sessionId : jsstring) : M unit :=
  executeTmux os (lit "kill-session -t '" ++ sessionId ++ lit "'") ;; ret tt.

Definition killWindow (windowId : jsstring) : M unit :=
  executeTmux os (lit "kill-window -t '" ++ windowId ++ lit "'") ;; ret tt.

Definition killPane (paneId : jsstring) : M unit :=
  executeTmux os (lit "kill-pane -t '" ++ paneId ++ lit "'") ;; ret tt.

End Topology.

(** ** Further vocabulary *)

(** The operations of [ops], one after the other. *)
Definition performAll (os : OS) (ops : list Operation) (w : World) : World :=
  foldl (fun w op => perform os op w) w ops.

(** Does [op] register a record under [commandId]? *)
Definition registers (commandId : jsstring) (op : Operation) : Prop :=
  match op with
  | ExecuteCommand uuid _ _ _ _ _ => uuid = commandId
  | _ => False
  end.

Definition isCleanup (op : Operation) : Prop :=
  match op with
  | CleanupOldCommands _ _ => True
  | _ => False
  end.

(** Every tracked record carries the identifier it is stored under. *)
Definition keyedById (w : World) : Prop :=
  forall commandId c, activeCommands w !! commandId = Some c -> id c = commandId.

(** [s] neither starts nor ends with white space. *)
Definition trimmed (s : jsstring) : Prop :=
  (forall c s', s = c :: s' -> isWhiteSpace c = false)
  /\ (forall c s', s = s' ++ [c] -> isWhiteSpace c = false).

(** [fields.join(sep)] for a separator of one code unit. *)
Fixpoint join (fields : list jsstring) (sep : N) : jsstring :=
  match fields with
  | [] => []
  | [field] => field
  | field :: fields' => field ++ sep :: join fields' sep
  end.

(** What tmux prints for the format strings of lines 85, 117 and 137: one
    line per entity, the fields in the order of the format, a flag as [1] or
    [0]. *)
Definition flag (b : bool) : jsstring := if b then lit "1" else lit "0".

Definition sessionLine (id name : jsstring) (attached : bool) (windows : jsstring) : jsstring :=
  join [id; name; flag attached; windows] COLON.

Definition windowLine (id name : jsstring) (active : bool) : jsstring :=
  join [id; name; flag active] COLON.

Definition paneLine (id title currentCommand cwd : jsstring) (active : bool) : jsstring :=
  join [id; title; currentCommand; cwd; flag active] BAR.

(** How a POSIX shell reads a word made of single-quoted parts and
    backslash-escaped characters: inside quotes every character up to the
    closing quote stands for itself; outside, a backslash makes the next
    character stand for itself.  [None] for any other word. *)
Fixpoint shellWord (quoted : bool) (word : jsstring) : option jsstring :=
  match word with
  | [] => if quoted then None else Some []
  | c :: word' =>
      if quoted then
        if (c =? 39)%N then shellWord false word'
        else cons c <$> shellWord true word'
      else if (c =? 39)%N then shellWord true word'
      else if (c =? 92)%N then
        match word' with
        | d :: word'' => cons d <$> shellWord false word''
        | [] => None
        end
      else None
  end.

(** * Properties *)

(** ** Occurrences of a string in a string *)


Lemma startsWith_app (pat s : jsstring) :
  startsWith pat s = true <-> exists after, s = pat ++ after.
Proof.
  revert s. induction pat as [|p pat IH]; intros s; simpl.
  - split; [intros _; by exists s | done].
  - destruct s as [|c s].
    + split; [done | intros [after Heq]; discriminate].
    + rewrite andb_true_iff, N.eqb_eq, IH. split.
      * intros [-> [after ->]]. by exists after.
      * intros [after Heq]. injection Heq as -> ->. eauto.
Qed.

Lemma occursAt_0 (pat s : jsstring) :
  occursAt pat s 0 <-> startsWith pat s = true.
Proof.
  rewrite startsWith_app. unfold occursAt, len. split.
  - intros (before & after & -> & Hlen). destruct before; [|simpl in Hlen; lia].
    by exists after.
  - intros [after ->]. by exists [], after.
Qed.

Lemma occursAt_nonneg (pat s : jsstring) k : occursAt pat s k -> 0 <= k.
Proof. intros (before & _ & _ & <-). unfold len. lia. Qed.

Lemma occursAt_cons (pat : jsstring) c s k :
  0 <= k -> occursAt pat (c :: s) (k + 1) <-> occursAt pat s k.
Proof.
  intros Hk. unfold occursAt, len. split.
  - intros (before & after & Heq & Hlen). destruct before as [|b before].
    + simpl in Hlen. lia.
    + injection Heq as -> ->. exists before, after. split; [done|].
      simpl in Hlen. lia.
  - intros (before & after & -> & Hlen). exists (c :: before), after.
    split; [done|]. simpl. lia.
Qed.

Lemma occursAt_nil (pat : jsstring) k : occursAt pat [] k -> k = 0.
Proof.
  intros (before & after & Heq & <-). symmetry in Heq.
  apply app_eq_nil in Heq as [-> _]. done.
Qed.

Lemma lastIndexOf_from_spec (pat s : jsstring) k :
  0 <= k ->
  (lastIndexOf_from pat s k = -1 /\ forall j, ~ occursAt pat s j)
  \/ (k <= lastIndexOf_from pat s k
      /\ occursAt pat s (lastIndexOf_from pat s k - k)
      /\ forall j, lastIndexOf_from pat s k - k < j -> ~ occursAt pat s j).
Proof.
  revert k. induction s as [|c s IH]; intros k Hk; simpl.
  - destruct (startsWith pat []) eqn:Hsw.
    + right. split; [lia|]. replace (k - k) with 0 by lia. split.
      * by apply occursAt_0.
      * intros j Hj Hocc. apply occursAt_nil in Hocc. lia.
    + left. split; [done|]. intros j Hocc.
      pose proof (occursAt_nil _ _ Hocc) as ->.
      apply occursAt_0 in Hocc. congruence.
  - destruct (IH (k + 1)) as [[Hnone Habs] | (Hle & Hocc & Hlast)]; [lia| |].
    + rewrite Hnone. simpl. destruct (startsWith pat (c :: s)) eqn:Hsw.
      * right. split; [lia|]. replace (k - k) with 0 by lia. split.
        -- by apply occursAt_0.
        -- intros j Hj Hocc. replace j with ((j - 1) + 1) in Hocc by lia.
           apply occursAt_cons in Hocc; [|lia]. by apply (Habs (j - 1)).
      * left. split; [done|]. intros j Hocc.
        pose proof (occursAt_nonneg _ _ _ Hocc) as Hj.
        destruct (decide (j = 0)) as [->|Hne].
        -- apply occursAt_0 in Hocc. congruence.
        -- replace j with ((j - 1) + 1) in Hocc by lia.
           apply occursAt_cons in Hocc; [|lia]. by apply (Habs (j - 1)).
    + set (later := lastIndexOf_from pat s (k + 1)) in *.
      assert ((0 <=? later) = true) as -> by (apply Z.leb_le; lia).
      right. split; [lia|]. split.
      * replace (later - k) with ((later - (k + 1)) + 1) by lia.
        apply occursAt_cons; [lia | done].
      * intros j Hj Hj'. replace j with ((j - 1) + 1) in Hj' by lia.
        apply occursAt_cons in Hj'; [|lia]. apply (Hlast (j - 1)); [lia | done].
Qed.

Lemma lastIndexOf_lastOccurrence (s pat : jsstring) :
  lastOccurrence pat s (lastIndexOf s pat).
Proof.
  unfold lastOccurrence, lastIndexOf.
  destruct (lastIndexOf_from_spec pat s 0) as [[H1 H2] | (H1 & H2 & H3)]; [lia| |].
  - left. done.
  - right. rewrite Z.sub_0_r in *. done.
Qed.

Lemma lastIndexOf_range (s pat : jsstring) :
  lastIndexOf s pat = -1 \/ 0 <= lastIndexOf s pat.
Proof.
  unfold lastIndexOf.
  destruct (lastIndexOf_from_spec pat s 0) as [[H1 H2] | (H1 & H2 & H3)]; [lia| |]; auto.
Qed.


(** *** Lines, digits and the end-marker expression *)

Lemma occursAt_app_r (pat s rest : jsstring) k :
  occursAt pat s k -> occursAt pat (s ++ rest) k.
Proof.
  intros (before & after & -> & Hlen). exists before, (after ++ rest).
  by rewrite <- !app_assoc.
Qed.

Lemma occursAt_drop (pat s : jsstring) (n : nat) j :
  (n <= length s)%nat -> occursAt pat (drop n s) j -> occursAt pat s (Z.of_nat n + j).
Proof.
  intros Hn (before & after & Heq & Hlen).
  exists (take n s ++ before), after. split.
  - rewrite <- app_assoc, <- Heq. by rewrite take_drop.
  - unfold len in *. rewrite length_app, length_take. lia.
Qed.

Lemma occursAt_bound (pat s : jsstring) k :
  occursAt pat s k -> k + len pat <= len s.
Proof.
  intros (before & after & -> & <-). unfold len. rewrite !length_app. lia.
Qed.

Lemma occursAt_drop_eq (pat s : jsstring) k :
  occursAt pat s k -> exists after, drop (Z.to_nat k) s = pat ++ after.
Proof.
  intros (before & after & -> & <-). exists after.
  unfold len. rewrite Nat2Z.id. by rewrite drop_app_length.
Qed.

Lemma substring_from_drop (s : jsstring) k :
  0 <= k -> substring_from s k = drop (Z.to_nat k) s.
Proof.
  intros Hk. unfold substring_from, substring, len.
  set (n := Z.of_nat (length s)).
  destruct (decide (k <= n)) as [Hle|Hgt].
  - replace (Z.min (Z.max k 0) n) with k by lia.
    replace (Z.min (Z.max n 0) n) with n by lia.
    replace (Z.min k n) with k by lia. replace (Z.max k n) with n by lia.
    apply take_ge. rewrite length_drop. lia.
  - replace (Z.min (Z.max k 0) n) with n by lia.
    replace (Z.min (Z.max n 0) n) with n by lia.
    rewrite Z.min_id, Z.max_id, Z.sub_diag. simpl.
    rewrite !drop_ge; [done | lia | lia].
Qed.

Lemma split_not_nil (s : jsstring) sep : split s sep <> [].
Proof.
  destruct s as [|c s]; simpl; [done|].
  destruct (c =? sep)%N; [done|]. by destruct (split s sep).
Qed.

Lemma firstLine_cons c (s : jsstring) :
  hd [] (split (c :: s) LF) = if (c =? LF)%N then [] else c :: hd [] (split s LF).
Proof.
  simpl. destruct (c =? LF)%N; [done|].
  pose proof (split_not_nil s LF). by destruct (split s LF).
Qed.

Lemma firstLine_prefix (s : jsstring) :
  exists rest, s = hd [] (split s LF) ++ rest.
Proof.
  induction s as [|c s [rest IH]].
  - by exists [].
  - rewrite firstLine_cons. destruct (c =? LF)%N.
    + by exists (c :: s).
    + exists rest. simpl. by rewrite <- IH.
Qed.

Lemma firstLine_app (pat after : jsstring) :
  LF ∉ pat ->
  hd [] (split (pat ++ after) LF) = pat ++ hd [] (split after LF).
Proof.
  induction pat as [|p pat IH]; intros Hnl; [done|].
  rewrite <- app_comm_cons, firstLine_cons.
  apply not_elem_of_cons in Hnl as [Hp Hpat].
  destruct (p =? LF)%N eqn:E; [apply N.eqb_eq in E; congruence|].
  simpl. by rewrite IH.
Qed.

Lemma takeDigits_firstLine (s : jsstring) :
  takeDigits (hd [] (split s LF)) = takeDigits s.
Proof.
  induction s as [|c s IH]; [done|].
  rewrite firstLine_cons. destruct (c =? LF)%N eqn:E.
  - apply N.eqb_eq in E. by subst c.
  - simpl. destruct (isDigit c); [by rewrite IH | done].
Qed.

Lemma endMarkerPrefix_one_line : LF ∉ endMarkerPrefix.
Proof. apply (bool_decide_unpack _). by vm_compute. Qed.

Lemma endMarkerRegex_at_prefixed (after : jsstring) :
  endMarkerRegex_at (endMarkerPrefix ++ after)
  = match takeDigits after with [] => None | digits => Some digits end.
Proof.
  unfold endMarkerRegex_at.
  assert (startsWith endMarkerPrefix (endMarkerPrefix ++ after) = true) as ->
    by (apply startsWith_app; eauto).
  by rewrite drop_app_length.
Qed.

Lemma endMarkerRegex_match_absent (s : jsstring) :
  (forall j, ~ occursAt endMarkerPrefix s j) -> endMarkerRegex_match s = None.
Proof.
  induction s as [|c s IH]; intros Habs.
  - simpl. unfold endMarkerRegex_at.
    destruct (startsWith endMarkerPrefix []) eqn:E; [|done].
    apply occursAt_0 in E. by apply Habs in E.
  - simpl. unfold endMarkerRegex_at.
    destruct (startsWith endMarkerPrefix (c :: s)) eqn:E.
    + apply occursAt_0 in E. by apply Habs in E.
    + apply IH. intros j Hocc. pose proof (occursAt_nonneg _ _ _ Hocc).
      apply (Habs (j + 1)). by apply occursAt_cons.
Qed.

Lemma endMarkerRegex_match_head (s : jsstring) :
  (forall j, 0 < j -> ~ occursAt endMarkerPrefix s j) ->
  endMarkerRegex_match s = endMarkerRegex_at s.
Proof.
  intros Habs. destruct s as [|c s]; simpl.
  - reflexivity.
  - destruct (endMarkerRegex_at (c :: s)); [done|].
    apply endMarkerRegex_match_absent. intros j Hocc.
    pose proof (occursAt_nonneg _ _ _ Hocc).
    apply (Habs (j + 1)); [lia|]. by apply occursAt_cons.
Qed.

(** On the line of the last end marker the expression matches exactly when a
    digit follows the prefix, and its group is the run of digits there. *)
Lemma endLine_match (content : jsstring) endIndex :
  occursAt endMarkerPrefix content endIndex ->
  (forall j, endIndex < j -> ~ occursAt endMarkerPrefix content j) ->
  endMarkerRegex_match (hd [] (split (substring_from content endIndex) LF))
  = match digitsAfterEndMarker content endIndex with
    | [] => None
    | digits => Some digits
    end.
Proof.
  intros Hocc Hlast.
  pose proof (occursAt_nonneg _ _ _ Hocc) as Hnn.
  pose proof (occursAt_bound _ _ _ Hocc) as Hbound.
  destruct (occursAt_drop_eq _ _ _ Hocc) as [after Hdrop].
  rewrite substring_from_drop by done.
  rewrite endMarkerRegex_match_head.
  - rewrite Hdrop. rewrite firstLine_app by apply endMarkerPrefix_one_line.
    rewrite endMarkerRegex_at_prefixed, takeDigits_firstLine.
    unfold digitsAfterEndMarker.
    rewrite <- drop_drop, Hdrop. by rewrite drop_app_length.
  - intros j Hj Hline.
    destruct (firstLine_prefix (drop (Z.to_nat endIndex) content)) as [rest Hrest].
    apply (occursAt_app_r _ _ rest) in Hline. rewrite <- Hrest in Hline.
    apply occursAt_drop in Hline; [|unfold len in *; lia].
    apply (Hlast (Z.of_nat (Z.to_nat endIndex) + j)); [lia | done].
Qed.

Lemma takeDigits_idem (s : jsstring) : takeDigits (takeDigits s) = takeDigits s.
Proof.
  induction s as [|c s IH]; [done|]. simpl.
  destruct (isDigit c) eqn:E; [|done]. simpl. by rewrite E, IH.
Qed.

Lemma digit_cases c :
  isDigit c = true -> c ∈ [48; 49; 50; 51; 52; 53; 54; 55; 56; 57]%N.
Proof.
  unfold isDigit. rewrite andb_true_iff, !N.leb_le. intros [Hlo Hhi].
  assert (c = 48 \/ c = 49 \/ c = 50 \/ c = 51 \/ c = 52 \/ c = 53 \/ c = 54
          \/ c = 55 \/ c = 56 \/ c = 57)%N as H by lia.
  repeat (destruct H as [->|H]; [set_solver|]). subst. set_solver.
Qed.

(** [parseInt] of a run of digits is the number nearest to its value. *)
Lemma parseInt10_digits (s : jsstring) :
  takeDigits s <> [] ->
  parseInt10 (takeDigits s) = number_of_Z (digitsValue (takeDigits s)).
Proof.
  intros Hne. pose proof (takeDigits_idem s) as Hidem.
  destruct (takeDigits s) as [|c ds] eqn:Hds; [done|].
  assert (isDigit c = true) as Hc.
  { destruct s as [|c' s]; [done|]. simpl in Hds.
    destruct (isDigit c') eqn:E; [|done]. by injection Hds as <- _. }
  unfold parseInt10.
  assert (trimStart (c :: ds) = c :: ds) as ->.
  { apply digit_cases in Hc. simpl.
    repeat (apply elem_of_cons in Hc as [->|Hc]; [done|]). by apply elem_of_nil in Hc. }
  assert (match c :: ds with
          | 45%N :: rest => (true, rest)
          | 43%N :: rest => (false, rest)
          | _ => (false, c :: ds)
          end = (false, c :: ds)) as ->.
  { apply digit_cases in Hc.
    repeat (apply elem_of_cons in Hc as [->|Hc]; [done|]). by apply elem_of_nil in Hc. }
  by rewrite Hidem.
Qed.


(** *** Rounding an integer to a number *)

Lemma digits2_pos_iter_xO p k :
  digits2_pos (Pos.iter xO p k) = (digits2_pos p + k)%positive.
Proof.
  induction k as [|k IH] using Pos.peano_ind.
  - simpl. lia.
  - rewrite Pos.iter_succ. simpl. rewrite IH. lia.
Qed.

Lemma digits2_pos_succ q :
  digits2_pos (Pos.succ q) = digits2_pos q
  \/ digits2_pos (Pos.succ q) = Pos.succ (digits2_pos q).
Proof.
  induction q as [q IH|q _|]; simpl; [|by left|by right].
  destruct IH as [-> | ->]; auto.
Qed.

Lemma shr_1_digits mrs q :
  shr_m mrs = Zpos q ->
  1 < Zpos (digits2_pos q) ->
  exists q', shr_m (shr_1 mrs) = Zpos q'
             /\ Zpos (digits2_pos q') = Zpos (digits2_pos q) - 1.
Proof.
  destruct mrs as [m r s]. simpl. intros -> Hd.
  destruct q as [q|q|]; simpl in *; [| |lia]; eexists; (split; [reflexivity|lia]).
Qed.

Lemma iter_shr_1_digits n :
  forall mrs q,
    shr_m mrs = Zpos q ->
    Zpos n < Zpos (digits2_pos q) ->
    exists q', shr_m (SpecFloat.iter_pos shr_1 n mrs) = Zpos q'
               /\ Zpos (digits2_pos q') = Zpos (digits2_pos q) - Zpos n.
Proof.
  induction n as [n IH|n IH|]; intros mrs q Hm Hn; simpl.
  - destruct (shr_1_digits mrs q Hm) as (q1 & Hm1 & Hd1); [lia|].
    destruct (IH _ q1 Hm1) as (q2 & Hm2 & Hd2); [lia|].
    destruct (IH _ q2 Hm2) as (q3 & Hm3 & Hd3); [lia|].
    exists q3. split; [done|lia].
  - destruct (IH _ q Hm) as (q2 & Hm2 & Hd2); [lia|].
    destruct (IH _ q2 Hm2) as (q3 & Hm3 & Hd3); [lia|].
    exists q3. split; [done|lia].
  - by apply shr_1_digits.
Qed.

Lemma round_nearest_even_digits q l :
  exists q1, round_nearest_even (Zpos q) l = Zpos q1
             /\ (Zpos (digits2_pos q1) = Zpos (digits2_pos q)
                 \/ Zpos (digits2_pos q1) = Zpos (digits2_pos q) + 1).
Proof.
  assert (exists q1, Zpos q + 1 = Zpos q1
                     /\ (Zpos (digits2_pos q1) = Zpos (digits2_pos q)
                         \/ Zpos (digits2_pos q1) = Zpos (digits2_pos q) + 1)) as Hup.
  { exists (Pos.succ q). split; [lia|].
    destruct (digits2_pos_succ q) as [-> | ->]; [by left|right; lia]. }
  unfold round_nearest_even. destruct l as [|[| |]].
  - exists q. auto.
  - destruct (Z.even (Zpos q)); [exists q; auto | exact Hup].
  - exists q. auto.
  - exact Hup.
Qed.

(** A mantissa of at least 53 bits is brought to 53 bits exactly. *)
Lemma shr_fexp_digits q e l :
  53 <= Zpos (digits2_pos q) ->
  -52 <= e ->
  exists mrs q',
    shr_fexp prec emax (Zpos q) e l = (mrs, e + Zpos (digits2_pos q) - 53)
    /\ shr_m mrs = Zpos q'
    /\ Zpos (digits2_pos q') = 53.
Proof.
  intros Hd He. unfold shr_fexp.
  assert (fexp prec emax (Zdigits2 (Zpos q) + e) - e = Zpos (digits2_pos q) - 53) as ->.
  { unfold fexp, SpecFloat.emin, prec, emax. simpl Zdigits2. lia. }
  assert (shr_m (shr_record_of_loc (Zpos q) l) = Zpos q) as Hm
    by (by destruct l as [|[| |]]).
  unfold shr. destruct (Zpos (digits2_pos q) - 53) as [|n|n] eqn:Hn; [|  |lia].
  - exists (shr_record_of_loc (Zpos q) l), q. split; [f_equal; lia|]. split; [done|lia].
  - destruct (iter_shr_1_digits n _ q Hm) as (q' & Hm' & Hd'); [lia|].
    exists (SpecFloat.iter_pos shr_1 n (shr_record_of_loc (Zpos q) l)), q'.
    split; [f_equal; lia|]. split; [done|lia].
Qed.

Lemma binary_round_aux_valid q e l :
  53 <= Zpos (digits2_pos q) ->
  -52 <= e ->
  binary_round_aux prec emax false (Zpos q) e l = S754_infinity false
  \/ exists m e',
       binary_round_aux prec emax false (Zpos q) e l = S754_finite false m e'
       /\ valid_binary (S754_finite false m e') = true.
Proof.
  intros Hd He. unfold binary_round_aux.
  destruct (shr_fexp_digits q e l Hd He) as (mrs1 & q1 & -> & Hm1 & Hd1).
  rewrite Hm1.
  destruct (round_nearest_even_digits q1 (loc_of_shr_record mrs1)) as (q2 & -> & Hd2).
  destruct (shr_fexp_digits q2 (e + Zpos (digits2_pos q) - 53) loc_Exact)
    as (mrs3 & q3 & -> & Hm3 & Hd3); [lia|lia|].
  rewrite Hm3.
  destruct (_ <=? _) eqn:Hle; [|by left].
  right. exists q3, (e + Zpos (digits2_pos q) - 53 + Zpos (digits2_pos q2) - 53).
  split; [done|].
  unfold SpecFloat.valid_binary, bounded, canonical_mantissa. rewrite Hle, andb_true_r.
  apply Z.eqb_eq. unfold fexp, SpecFloat.emin, prec, emax. lia.
Qed.

Lemma binary_round_valid p :
  binary_round prec emax false p 0 = S754_infinity false
  \/ exists m e,
       binary_round prec emax false p 0 = S754_finite false m e
       /\ valid_binary (S754_finite false m e) = true.
Proof.
  unfold binary_round.
  assert (fexp prec emax (Zpos (digits2_pos p) + 0) = Zpos (digits2_pos p) - 53) as ->.
  { unfold fexp, SpecFloat.emin, prec, emax. lia. }
  unfold shl_align.
  destruct (Zpos (digits2_pos p) - 53 - 0) as [|n|n] eqn:Hn.
  - apply binary_round_aux_valid; lia.
  - apply binary_round_aux_valid; lia.
  - apply binary_round_aux_valid; [rewrite digits2_pos_iter_xO|]; lia.
Qed.

(** The number nearest to a positive integer is not zero. *)
Lemma number_of_Z_positive z : 0 < z -> strictEq (number_of_Z z) 0 = false.
Proof.
  intros Hz. destruct z as [|p|p]; [lia| |lia].
  unfold number_of_Z, strictEq. simpl binary_normalize.
  destruct (binary_round_valid p) as [-> | (m & e & -> & Hvalid)]; [done|].
  rewrite FloatAxioms.eqb_spec, (Prim2SF_SF2Prim _ Hvalid).
  by change (Prim2SF 0) with (S754_zero false).
Qed.

Lemma Zpos_iter_xO p k : Zpos (Pos.iter xO p k) = Zpos p * 2 ^ Zpos k.
Proof.
  induction k as [|k IH] using Pos.peano_ind.
  - simpl. lia.
  - rewrite Pos.iter_succ, Pos2Z.inj_xO, IH, Pos2Z.inj_succ, Z.pow_succ_r; lia.
Qed.

Lemma digits2_pos_size p : digits2_pos p = Pos.size p.
Proof. induction p as [p IH|p IH|]; simpl; by rewrite ?IH. Qed.

Lemma digits2_pos_bound p : Zpos p < 2 ^ 53 -> Zpos (digits2_pos p) <= 53.
Proof.
  intros Hp. rewrite digits2_pos_size.
  pose proof (Pos.size_le p) as Hle.
  apply Pos2Z.pos_le_pos in Hle. rewrite Pos2Z.inj_pow in Hle.
  change (Zpos p~0) with (2 * Zpos p) in Hle.
  destruct (decide (Zpos (Pos.size p) <= 53)) as [|Hbig]; [done|].
  assert (2 ^ 54 <= 2 ^ Zpos (Pos.size p)) by (apply Z.pow_le_mono_r; lia).
  pose proof (eq_refl : 2 ^ 54 = 2 * 2 ^ 53). lia.
Qed.

(** A mantissa of exactly 53 bits is kept as it is. *)
Lemma binary_round_aux_exact q e :
  Zpos (digits2_pos q) = 53 ->
  -52 <= e <= 971 ->
  binary_round_aux prec emax false (Zpos q) e loc_Exact = S754_finite false q e.
Proof.
  intros Hd He. unfold binary_round_aux.
  assert (shr_fexp prec emax (Zpos q) e loc_Exact
          = ({| shr_m := Zpos q; shr_r := false; shr_s := false |}, e)) as Hshr.
  { unfold shr_fexp.
    assert (fexp prec emax (Zdigits2 (Zpos q) + e) - e = 0) as ->; [|done].
    unfold fexp, SpecFloat.emin, prec, emax. simpl Zdigits2. lia. }
  rewrite Hshr. cbn [shr_m loc_of_shr_record round_nearest_even]. rewrite Hshr.
  cbn [shr_m].
  assert ((e <=? emax - prec) = true) as -> by (apply Z.leb_le; unfold emax, prec; lia).
  done.
Qed.

(** An integer below 2^53 is a number, and the nearest number is itself. *)
Lemma number_of_Z_exact z : 0 <= z < 2 ^ 53 -> isInteger (number_of_Z z) z.
Proof.
  intros [Hz Hbound]. destruct z as [|p|p]; [done| |lia].
  pose proof (digits2_pos_bound p Hbound) as Hd.
  assert (exists m e,
            binary_round prec emax false p 0 = S754_finite false m e
            /\ Zpos (digits2_pos m) = 53 /\ -52 <= e <= 0
            /\ Zpos m = Zpos p * 2 ^ (- e)) as (m & e & Hround & Hm & He & Hvalue).
  { unfold binary_round.
    assert (fexp prec emax (Zpos (digits2_pos p) + 0) = Zpos (digits2_pos p) - 53) as ->.
    { unfold fexp, SpecFloat.emin, prec, emax. lia. }
    unfold shl_align.
    destruct (Zpos (digits2_pos p) - 53 - 0) as [|n|n] eqn:Hn; [|lia|].
    - exists p, 0. rewrite binary_round_aux_exact by lia.
      repeat split; lia.
    - exists (Pos.iter xO p n), (Zpos (digits2_pos p) - 53).
      rewrite binary_round_aux_exact by (rewrite ?digits2_pos_iter_xO; lia).
      rewrite digits2_pos_iter_xO, Zpos_iter_xO.
      replace (- (Zpos (digits2_pos p) - 53)) with (Zpos n) by lia.
      repeat split; try done; lia. }
  unfold isInteger, number_of_Z. simpl binary_normalize. rewrite Hround.
  rewrite Prim2SF_SF2Prim.
  - rewrite (Z.max_r e 0), (Z.max_l (- e) 0) by lia. rewrite Hvalue. lia.
  - unfold SpecFloat.valid_binary, bounded, canonical_mantissa.
    apply andb_true_iff. split; [apply Z.eqb_eq|apply Z.leb_le];
      unfold fexp, SpecFloat.emin, prec, emax; lia.
Qed.

Lemma takeDigits_are_digits (s : jsstring) : forallb isDigit (takeDigits s) = true.
Proof.
  induction s as [|c s IH]; [done|]. simpl.
  destruct (isDigit c) eqn:E; [|done]. simpl. by rewrite E.
Qed.

Lemma digitsValue_nonneg (ds : jsstring) :
  forallb isDigit ds = true -> 0 <= digitsValue ds.
Proof.
  unfold digitsValue.
  assert (forall acc, 0 <= acc -> forallb isDigit ds = true ->
            0 <= fold_left (fun acc c => 10 * acc + (Z.of_N c - 48)) ds acc) as H.
  { induction ds as [|d ds IH]; intros acc Hacc Hds; [done|].
    cbn [forallb fold_left] in *.
    apply andb_true_iff in Hds as [Hd Hds]. apply IH; [|done].
    unfold isDigit in Hd. apply andb_true_iff in Hd as [Hlo _].
    apply N.leb_le in Hlo. lia. }
  by apply H.
Qed.

(** ** The status check on a pending record *)

Section StatusCheck.

Variable os : OS.

Lemma executeTmux_frame tmuxCommand w w' r :
  executeTmux os tmuxCommand w = (w', r) ->
  activeCommands w' = activeCommands w
  /\ shellConfig w' = shellConfig w
  /\ spawned w' = spawned w ++ [lit "tmux " ++ tmuxCommand].
Proof.
  unfold executeTmux. destruct (os _ _); intros [= <- _]; done.
Qed.

Lemma capturePaneContent_frame pane n colors w w' r :
  capturePaneContent os pane n colors w = (w', r) ->
  activeCommands w' = activeCommands w.
Proof. intros H. by apply executeTmux_frame in H as (? & _). Qed.

(** A status check of a pending record captures the pane, applies [resolve]
    to the record and hands the record back. *)
Lemma checkCommandStatus_pending w commandId c w1 content :
  activeCommands w !! commandId = Some c ->
  status c = pending ->
  capturePaneContent os (paneId c) 1000 false w = (w1, Return content) ->
  checkCommandStatus os commandId w
  = match resolve c content with
    | Some c' =>
        ({| activeCommands := <[commandId := c']> (activeCommands w1);
            shellConfig := shellConfig w1;
            spawned := spawned w1 |}, Return (Some c'))
    | None => (w1, Return (Some c))
    end.
Proof.
  intros Hget Hpending Hcapture.
  unfold checkCommandStatus, bind, readCommands.
  rewrite Hget, Hpending. simpl. rewrite Hcapture.
  by destruct (resolve c content).
Qed.

(** The status check always hands back the record it leaves in the map. *)
Lemma checkCommandStatus_tracked w commandId c w1 content :
  activeCommands w !! commandId = Some c ->
  status c = pending ->
  capturePaneContent os (paneId c) 1000 false w = (w1, Return content) ->
  exists w',
    checkCommandStatus os commandId w
    = (w', Return (Some (default c (resolve c content))))
    /\ activeCommands w' !! commandId = Some (default c (resolve c content)).
Proof.
  intros Hget Hpending Hcapture.
  rewrite (checkCommandStatus_pending _ _ _ _ _ Hget Hpending Hcapture).
  apply capturePaneContent_frame in Hcapture.
  destruct (resolve c content) as [c'|]; eexists; (split; [done|]); simpl.
  - apply lookup_insert_eq.
  - by rewrite Hcapture.
Qed.

End StatusCheck.

(** [resolve] on a record that is not raw. *)
Lemma resolve_markers c content :
  truthy (rawMode c) = false ->
  let startIndex := lastIndexOf content startMarkerText in
  let endIndex := lastIndexOf content endMarkerPrefix in
  (~ (0 <= startIndex /\ 0 <= endIndex /\ startIndex < endIndex) ->
   resolve c content = Some (set_result notCaptured c))
  /\ (0 <= startIndex -> startIndex < endIndex ->
      resolve c content
      = match digitsAfterEndMarker content endIndex with
        | [] => None
        | digits =>
            let code := number_of_Z (digitsValue digits) in
            Some (set_result (extractOutput content startIndex endIndex)
                    (set_exitCode code
                       (set_status (if strictEq code 0 then completed else error) c)))
        end).
Proof.
  intros Hraw startIndex endIndex. unfold resolve. rewrite Hraw.
  fold startIndex endIndex.
  pose proof (lastIndexOf_range content startMarkerText) as Hs.
  pose proof (lastIndexOf_range content endMarkerPrefix) as He.
  fold startIndex in Hs. fold endIndex in He.
  split.
  - intros Hno.
    assert ((startIndex =? -1) || (endIndex =? -1) || (endIndex <=? startIndex) = true) as ->; [|done].
    rewrite !orb_true_iff, !Z.eqb_eq, Z.leb_le. lia.
  - intros H0 Hlt.
    assert ((startIndex =? -1) || (endIndex =? -1) || (endIndex <=? startIndex) = false) as ->.
    { rewrite !orb_false_iff, !Z.eqb_neq, Z.leb_gt. lia. }
    destruct (lastIndexOf_lastOccurrence content endMarkerPrefix) as [[Hneg _]|[Hocc Hlast]];
      [fold endIndex in Hneg; lia|].
    fold endIndex in Hocc, Hlast.
    rewrite (endLine_match content endIndex Hocc Hlast).
    unfold digitsAfterEndMarker.
    set (rest := drop _ content).
    pose proof (parseInt10_digits rest) as Hparse.
    destruct (takeDigits rest) as [|d ds]; [done|].
    by rewrite Hparse.
Qed.



(** C1. For a pending record that is not raw, the status check locates the
    last occurrence of the start marker and the last occurrence of the
    end-marker prefix in the captured text.  The record leaves [pending] only
    when both are found with the end marker strictly after the start marker;
    when they are not, the result becomes the fixed "could not be captured"
    message and the status stays [pending]. *)
Theorem checkCommandStatus_locates_last_markers
    (os : OS) (w w1 : World) (commandId : jsstring) (c : CommandExecution)
    (content : jsstring) :
  activeCommands w !! commandId = Some c ->
  status c = pending ->
  truthy (rawMode c) = false ->
  capturePaneContent os (paneId c) 1000 false w = (w1, Return content) ->
  let startIndex := lastIndexOf content startMarkerText in
  let endIndex := lastIndexOf content endMarkerPrefix in
  lastOccurrence startMarkerText content startIndex
  /\ lastOccurrence endMarkerPrefix content endIndex
  /\ exists w' c',
      checkCommandStatus os commandId w = (w', Return (Some c'))
      /\ activeCommands w' !! commandId = Some c'
      /\ (status c' <> pending ->
          0 <= startIndex /\ 0 <= endIndex /\ startIndex < endIndex)
      /\ (~ (0 <= startIndex /\ 0 <= endIndex /\ startIndex < endIndex) ->
          result c' = Some notCaptured
          /\ status c' = pending
          /\ exitCode c' = exitCode c).
Proof.
  intros Hget Hpending Hraw Hcapture startIndex endIndex.
  split; [apply lastIndexOf_lastOccurrence|].
  split; [apply lastIndexOf_lastOccurrence|].
  destruct (checkCommandStatus_tracked os w commandId c w1 content Hget Hpending Hcapture)
    as (w' & Hrun & Htracked).
  exists w', (default c (resolve c content)).
  split; [done|]. split; [done|].
  destruct (resolve_markers c content Hraw) as [Hfail Hok].
  fold startIndex endIndex in Hfail, Hok.
  split.
  - intros Hresolved.
    destruct (decide (0 <= startIndex /\ 0 <= endIndex /\ startIndex < endIndex))
      as [Hin|Hout]; [done|].
    rewrite (Hfail Hout) in Hresolved. simpl in Hresolved. congruence.
  - intros Hout. rewrite (Hfail Hout). simpl. by rewrite Hpending.
Qed.

Lemma checkCommandStatus_locates_last_markers_witness :
  lastOccurrence startMarkerText (trim scenario) 3
  /\ lastOccurrence endMarkerPrefix (trim scenario) 29
  /\ exists w' c',
      checkCommandStatus (printing scenario) (lit "c-1") (sampleWorld None)
      = (w', Return (Some c'))
      /\ activeCommands w' !! lit "c-1" = Some c'
      /\ (status c' <> pending -> 0 <= 3 /\ 0 <= 29 /\ 3 < 29)
      /\ (~ (0 <= 3 /\ 0 <= 29 /\ 3 < 29) ->
          result c' = Some notCaptured
          /\ status c' = pending
          /\ exitCode c' = exitCode (sampleExecution None)).
Proof.
  apply (checkCommandStatus_locates_last_markers
           (printing scenario) (sampleWorld None)
           (fst (capturePaneContent (printing scenario) (lit "%1") 1000 false (sampleWorld None)))
           (lit "c-1") (sampleExecution None) (trim scenario));
    reflexivity.
Defined.

(** C2. When both markers are found in order and digits follow the
    end-marker prefix, the exit code of the record is the number those digits
    denote, and the status is [completed] when that number is 0 and [error]
    otherwise: the digits denote a natural number, the exit code is the
    number nearest to it, which is that very integer below 2^53, and the
    status is [error] for every value except 0. *)
Theorem checkCommandStatus_exit_code
    (os : OS) (w w1 : World) (commandId : jsstring) (c : CommandExecution)
    (content : jsstring) :
  activeCommands w !! commandId = Some c ->
  status c = pending ->
  truthy (rawMode c) = false ->
  capturePaneContent os (paneId c) 1000 false w = (w1, Return content) ->
  let startIndex := lastIndexOf content startMarkerText in
  let endIndex := lastIndexOf content endMarkerPrefix in
  0 <= startIndex ->
  startIndex < endIndex ->
  digitsAfterEndMarker content endIndex <> [] ->
  let code := number_of_Z (digitsValue (digitsAfterEndMarker content endIndex)) in
  exists w' c',
    checkCommandStatus os commandId w = (w', Return (Some c'))
    /\ activeCommands w' !! commandId = Some c'
    /\ exitCode c' = Some code
    /\ status c' = (if strictEq code 0 then completed else error)
    /\ (digitsValue (digitsAfterEndMarker content endIndex) = 0 -> status c' = completed)
    /\ (digitsValue (digitsAfterEndMarker content endIndex) <> 0 -> status c' = error)
    /\ 0 <= digitsValue (digitsAfterEndMarker content endIndex)
    /\ (digitsValue (digitsAfterEndMarker content endIndex) < 2 ^ 53 ->
        isInteger code (digitsValue (digitsAfterEndMarker content endIndex))).
Proof.
  intros Hget Hpending Hraw Hcapture startIndex endIndex H0 Hlt Hdigits code.
  destruct (checkCommandStatus_tracked os w commandId c w1 content Hget Hpending Hcapture)
    as (w' & Hrun & Htracked).
  exists w', (default c (resolve c content)).
  split; [done|]. split; [done|].
  destruct (resolve_markers c content Hraw) as [_ Hok].
  rewrite (Hok H0 Hlt). fold endIndex. subst code.
  pose proof (digitsValue_nonneg _ (takeDigits_are_digits
    (drop (Z.to_nat endIndex + length endMarkerPrefix) content))) as Hvalue.
  fold (digitsAfterEndMarker content endIndex) in Hvalue.
  destruct (digitsAfterEndMarker content endIndex) as [|d ds]; [done|].
  cbn [default exitCode status]. split; [done|]. split; [done|].
  split; [by intros ->|].
  split; [|split; [done|]].
  - intros Hnonzero. rewrite number_of_Z_positive; [done|lia].
  - intros Hbound. apply number_of_Z_exact. lia.
Qed.

Lemma checkCommandStatus_exit_code_witness :
  exists w' c',
    checkCommandStatus (printing notFound) (lit "c-1") (sampleWorld None)
    = (w', Return (Some c'))
    /\ activeCommands w' !! lit "c-1" = Some c'
    /\ exitCode c' = Some 127%float
    /\ status c' = error
    /\ isInteger 127%float 127.
Proof.
  pose proof (checkCommandStatus_exit_code
                (printing notFound) (sampleWorld None)
                (fst (capturePaneContent (printing notFound) (lit "%1") 1000 false (sampleWorld None)))
                (lit "c-1") (sampleExecution None) (trim notFound)
                eq_refl eq_refl eq_refl eq_refl
                ltac:(by vm_compute) ltac:(by vm_compute) ltac:(by vm_compute))
    as (w' & c' & Hrun & Htracked & Hcode & _ & _ & Hstatus & _ & Hexact).
  exists w', c'. split; [assumption|]. split; [assumption|]. split; [assumption|].
  split; [apply Hstatus; by vm_compute | apply Hexact; by vm_compute].
Defined.


(** C3. When both markers are found in order but no digit follows the
    end-marker prefix, the status check returns normally and leaves the
    record as it was: still [pending], its exit code not set. *)
Theorem checkCommandStatus_no_digits
    (os : OS) (w w1 : World) (commandId : jsstring) (c : CommandExecution)
    (content : jsstring) :
  activeCommands w !! commandId = Some c ->
  status c = pending ->
  truthy (rawMode c) = false ->
  capturePaneContent os (paneId c) 1000 false w = (w1, Return content) ->
  let startIndex := lastIndexOf content startMarkerText in
  let endIndex := lastIndexOf content endMarkerPrefix in
  0 <= startIndex ->
  startIndex < endIndex ->
  digitsAfterEndMarker content endIndex = [] ->
  exists w' c',
    checkCommandStatus os commandId w = (w', Return (Some c'))
    /\ activeCommands w' !! commandId = Some c'
    /\ c' = c
    /\ status c' = pending
    /\ exitCode c' = exitCode c.
Proof.
  intros Hget Hpending Hraw Hcapture startIndex endIndex H0 Hlt Hdigits.
  destruct (checkCommandStatus_tracked os w commandId c w1 content Hget Hpending Hcapture)
    as (w' & Hrun & Htracked).
  exists w', (default c (resolve c content)).
  split; [done|]. split; [done|].
  destruct (resolve_markers c content Hraw) as [_ Hok].
  rewrite (Hok H0 Hlt). fold endIndex. rewrite Hdigits. done.
Qed.

Lemma checkCommandStatus_no_digits_witness :
  exists w' c',
    checkCommandStatus (printing noDigits) (lit "c-1") (sampleWorld None)
    = (w', Return (Some c'))
    /\ activeCommands w' !! lit "c-1" = Some c'
    /\ c' = sampleExecution None
    /\ status c' = pending
    /\ exitCode c' = exitCode (sampleExecution None).
Proof.
  apply (checkCommandStatus_no_digits
           (printing noDigits) (sampleWorld None)
           (fst (capturePaneContent (printing noDigits) (lit "%1") 1000 false (sampleWorld None)))
           (lit "c-1") (sampleExecution None) (trim noDigits));
    try reflexivity; by vm_compute.
Defined.




(** ** Raw records *)

Lemma resolve_rawMode c content :
  truthy (rawMode c) = true ->
  resolve c content = Some (set_result rawModeAdvisory c).
Proof. intros Hraw. unfold resolve. by rewrite Hraw. Qed.

(** One status check of a pending raw record, whatever the gateway does. *)
Lemma rawMode_check_step os w commandId c :
  activeCommands w !! commandId = Some c ->
  status c = pending ->
  truthy (rawMode c) = true ->
  exists c',
    activeCommands (perform os (CheckCommandStatus commandId) w) !! commandId = Some c'
    /\ status c' = pending
    /\ exitCode c' = exitCode c
    /\ truthy (rawMode c') = true.
Proof.
  intros Hget Hpending Hraw. simpl.
  destruct (capturePaneContent os (paneId c) 1000 false w) as [w1 [content|e]] eqn:Hcapture.
  - rewrite (checkCommandStatus_pending os w commandId c w1 content Hget Hpending Hcapture).
    rewrite (resolve_rawMode c content Hraw). simpl.
    exists (set_result rawModeAdvisory c). by rewrite lookup_insert_eq.
  - unfold checkCommandStatus, bind, readCommands.
    rewrite Hget, Hpending. simpl. rewrite Hcapture. simpl.
    apply capturePaneContent_frame in Hcapture. rewrite Hcapture. by exists c.
Qed.

(** C6. A pending record with [rawMode] set keeps its status and its exit
    code through any number of status checks, whatever the pane shows and
    whether or not the capture succeeds, so it never becomes [completed] or
    [error] this way; every check that captures the pane sets the result to
    the same advisory text. *)
Theorem checkCommandStatus_rawMode
    (os : OS) (w : World) (commandId : jsstring) (c : CommandExecution) :
  activeCommands w !! commandId = Some c ->
  status c = pending ->
  truthy (rawMode c) = true ->
  (forall n, exists c',
      activeCommands (poll os commandId n w) !! commandId = Some c'
      /\ status c' = pending
      /\ exitCode c' = exitCode c)
  /\ (forall w1 content,
        capturePaneContent os (paneId c) 1000 false w = (w1, Return content) ->
        exists w' c',
          checkCommandStatus os commandId w = (w', Return (Some c'))
          /\ activeCommands w' !! commandId = Some c'
          /\ result c' = Some rawModeAdvisory
          /\ status c' = status c
          /\ exitCode c' = exitCode c).
Proof.
  intros Hget Hpending Hraw. split.
  - intros n.
    assert (exists c', activeCommands (poll os commandId n w) !! commandId = Some c'
                       /\ status c' = pending /\ exitCode c' = exitCode c
                       /\ truthy (rawMode c') = true) as (c' & ? & ? & ? & ?);
      [|by exists c'].
    induction n as [|n (c' & Hget' & Hpending' & Hcode' & Hraw')].
    + by exists c.
    + unfold poll. rewrite Nat.iter_succ. fold (poll os commandId n w).
      destruct (rawMode_check_step os _ commandId c' Hget' Hpending' Hraw')
        as (c'' & ? & ? & ? & ?).
      exists c''. repeat split; [done | done | congruence | done].
  - intros w1 content Hcapture.
    destruct (checkCommandStatus_tracked os w commandId c w1 content Hget Hpending Hcapture)
      as (w' & Hrun & Htracked).
    rewrite (resolve_rawMode c content Hraw) in Hrun, Htracked.
    by exists w', (set_result rawModeAdvisory c).
Qed.

Lemma checkCommandStatus_rawMode_witness :
  (forall n, exists c',
      activeCommands (poll (printing scenario) (lit "c-1") n (sampleWorld (Some true)))
        !! lit "c-1" = Some c'
      /\ status c' = pending
      /\ exitCode c' = None)
  /\ exists w' c',
      checkCommandStatus (printing scenario) (lit "c-1") (sampleWorld (Some true))
      = (w', Return (Some c'))
      /\ activeCommands w' !! lit "c-1" = Some c'
      /\ result c' = Some rawModeAdvisory
      /\ status c' = pending
      /\ exitCode c' = None.
Proof.
  destruct (checkCommandStatus_rawMode (printing scenario) (sampleWorld (Some true))
              (lit "c-1") (sampleExecution (Some true)))
    as [Hpoll Hcheck]; [reflexivity | reflexivity | reflexivity |].
  split; [exact Hpoll|].
  exact (Hcheck _ (trim scenario) eq_refl).
Defined.

(** ** Eviction *)

Lemma cleanup_loop (now threshold : float)
    (entries : list (jsstring * CommandExecution)) (w : World) :
  let run :=
    forOf entries (fun '(commandId, c) =>
      if isStale now threshold c then writeCommands (delete commandId) else ret tt) w in
  run.2 = Return tt
  /\ shellConfig run.1 = shellConfig w
  /\ spawned run.1 = spawned w
  /\ forall k,
      activeCommands run.1 !! k
      = if evicts now threshold k entries then None else activeCommands w !! k.
Proof.
  revert w. induction entries as [|[commandId c] entries IH]; intros w; simpl.
  - done.
  - unfold bind. destruct (isStale now threshold c) eqn:Hstale; simpl.
    + edestruct IH as (-> & -> & -> & Hlookup). repeat split; try done.
      intros k. rewrite Hlookup. simpl. rewrite andb_true_r.
      destruct (evicts now threshold k entries); [by rewrite orb_true_r|].
      rewrite orb_false_r. case_bool_decide as Hk.
      * subst. apply lookup_delete_eq.
      * by apply lookup_delete_ne.
    + edestruct IH as (-> & -> & -> & Hlookup). repeat split; try done.
      intros k. rewrite Hlookup. by rewrite andb_false_r.
Qed.

Lemma evicts_map_to_list (now threshold : float) (k : jsstring)
    (m : gmap jsstring CommandExecution) :
  evicts now threshold k (map_to_list m)
  = match m !! k with
    | Some c => isStale now threshold c
    | None => false
    end.
Proof.
  unfold evicts. destruct (m !! k) as [c|] eqn:Hget.
  - destruct (isStale now threshold c) eqn:Hstale.
    + apply existsb_exists. exists (k, c). split.
      * apply list_elem_of_In. by apply elem_of_map_to_list.
      * rewrite Hstale. by rewrite bool_decide_eq_true_2.
    + apply not_true_is_false. intros Hex.
      apply existsb_exists in Hex as ([k' c'] & Hin & Hk).
      apply andb_true_iff in Hk as [Hk Hs]. apply bool_decide_eq_true in Hk. subst k'.
      apply list_elem_of_In, elem_of_map_to_list in Hin. congruence.
  - apply not_true_is_false. intros Hex.
    apply existsb_exists in Hex as ([k' c'] & Hin & Hk).
    apply andb_true_iff in Hk as [Hk Hs]. apply bool_decide_eq_true in Hk. subst k'.
    apply list_elem_of_In, elem_of_map_to_list in Hin. congruence.
Qed.

(** What [cleanupOldCommands] leaves in the map. *)
Lemma cleanupOldCommands_lookup now maxAgeMinutes w :
  let run := cleanupOldCommands now maxAgeMinutes w in
  run.2 = Return tt
  /\ forall k,
      activeCommands run.1 !! k
      = match activeCommands w !! k with
        | Some c => if isStale now (default 60%float maxAgeMinutes) c then None else Some c
        | None => None
        end.
Proof.
  unfold cleanupOldCommands, bind, readCommands. simpl.
  destruct (cleanup_loop now (default 60%float maxAgeMinutes)
              (map_to_list (activeCommands w)) w) as (Hret & _ & _ & Hlookup).
  simpl in Hret, Hlookup.
  split; [done|]. intros k. rewrite Hlookup, evicts_map_to_list.
  by destruct (activeCommands w !! k) as [c|]; [destruct (isStale _ _ c)|].
Qed.

Lemma Status_eqb_eq a b : Status_eqb a b = true <-> a = b.
Proof. by destruct a, b. Qed.

(** C7. [cleanupOldCommands] returns normally; a tracked record is removed
    exactly when its status is not [pending] and its age in minutes exceeds
    the threshold.  A pending record stays whatever its age, a record whose
    age does not exceed the threshold stays, a record that stays is
    unchanged, and no record is added. *)
Theorem cleanupOldCommands_evicts_exactly
    (now : Date) (maxAgeMinutes : option float) (w : World)
    (commandId : jsstring) (c : CommandExecution) :
  activeCommands w !! commandId = Some c ->
  let threshold := default 60%float maxAgeMinutes in
  let w' := (cleanupOldCommands now maxAgeMinutes w).1 in
  (cleanupOldCommands now maxAgeMinutes w).2 = Return tt
  /\ (activeCommands w' !! commandId = None
      <-> status c <> pending /\ (threshold <? ageMinutes now c)%float = true)
  /\ (activeCommands w' !! commandId = None \/ activeCommands w' !! commandId = Some c)
  /\ (status c = pending -> activeCommands w' !! commandId = Some c)
  /\ ((threshold <? ageMinutes now c)%float = false ->
      activeCommands w' !! commandId = Some c)
  /\ (forall k, activeCommands w !! k = None -> activeCommands w' !! k = None).
Proof.
  intros Hget threshold w'.
  destruct (cleanupOldCommands_lookup now maxAgeMinutes w) as [Hret Hlookup].
  fold w' in Hlookup. simpl in Hlookup.
  split; [done|].
  pose proof (Hlookup commandId) as Hc. rewrite Hget in Hc. fold threshold in Hc.
  unfold isStale in Hc.
  assert (negb (Status_eqb (status c) pending) = true <-> status c <> pending) as Hneg.
  { rewrite negb_true_iff, <- not_true_iff_false. by rewrite Status_eqb_eq. }
  split; [split|].
  - intros Hgone. rewrite Hgone in Hc.
    destruct (negb _) eqn:Hstatus; simpl in Hc; [|done].
    destruct (PrimFloat.ltb _ _) eqn:Hage; [|done].
    split; [by apply Hneg | done].
  - intros [Hstatus Hage]. apply Hneg in Hstatus.
    rewrite Hc, Hstatus. simpl. by rewrite Hage.
  - split; [rewrite Hc; by destruct (_ && _); [left | right]|].
    split; [intros Hpending; by rewrite Hc, Hpending|].
    split; [intros Hyoung; by rewrite Hc, Hyoung, andb_false_r|].
    intros k Hnone. by rewrite Hlookup, Hnone.
Qed.

Lemma cleanupOldCommands_evicts_exactly_witness :
  (cleanupOldCommands 7200000%float None finishedWorld).2 = Return tt
  /\ activeCommands (cleanupOldCommands 7200000%float None finishedWorld).1 !! lit "c-1" = None.
Proof.
  destruct (cleanupOldCommands_evicts_exactly 7200000%float None finishedWorld
              (lit "c-1") finishedExecution eq_refl)
    as (Hret & [_ Hgone] & _).
  split; [exact Hret|].
  apply Hgone. split; [discriminate | reflexivity].
Defined.

(** ** The dispatcher *)

Lemma allSucceed_app os log (a b : list jsstring) :
  allSucceed os log (a ++ b) <-> allSucceed os log a /\ allSucceed os (log ++ a) b.
Proof.
  revert log. induction a as [|line a IH]; intros log; simpl.
  - rewrite app_nil_r. tauto.
  - rewrite IH, <- app_assoc. simpl. tauto.
Qed.

Section Dispatcher.

Variable os : OS.

Lemma transmitted_ret w : transmitted os w (ret tt w).
Proof.
  repeat split. exists []. simpl. by rewrite app_nil_r.
Qed.

Lemma transmitted_send tmuxCommand w :
  isSendKeys (lit "tmux " ++ tmuxCommand) = true ->
  transmitted os w ((executeTmux os tmuxCommand ;; ret tt) w).
Proof.
  intros Hsend. unfold bind, executeTmux.
  destruct (os (spawned w) (lit "tmux " ++ tmuxCommand)) as [stdout|msg] eqn:Hos;
    simpl; repeat split; simpl; exists [lit "tmux " ++ tmuxCommand];
    (split; [done|]); (split; [by apply Forall_singleton|]).
  - simpl. eauto.
  - exists [], (lit "tmux " ++ tmuxCommand), msg. by rewrite app_nil_r.
Qed.

Lemma transmitted_seq (m k : M unit) w :
  transmitted os w (m w) ->
  (forall w', transmitted os w' (k w')) ->
  transmitted os w ((m ;; k) w).
Proof.
  intros (Hcmds & Hshell & sent & Hsent & Hkeys & Hout) Hk. unfold bind.
  destruct (m w) as [w1 [[]|e]]; simpl in *.
  - destruct (Hk w1) as (Hcmds' & Hshell' & sent' & Hsent' & Hkeys' & Hout').
    split; [congruence|]. split; [congruence|].
    exists (sent ++ sent'). split; [by rewrite Hsent', Hsent, app_assoc|].
    split; [by apply Forall_app|].
    rewrite Hsent in Hout'.
    destruct (k w1).2 as [[]|e].
    + by apply allSucceed_app.
    + destruct Hout' as (before & line & msg & -> & Hbefore & Hfail & ->).
      exists (sent ++ before), line, msg. rewrite !app_assoc.
      repeat split; [|done]. by apply allSucceed_app.
  - split; [done|]. split; [done|]. by exists sent.
Qed.

Lemma forOf_transmitted {A} (xs : list A) (body : A -> M unit) w :
  (forall x w', transmitted os w' (body x w')) ->
  transmitted os w (forOf xs body w).
Proof.
  intros Hbody. revert w. induction xs as [|x xs IH]; intros w; simpl.
  - apply transmitted_ret.
  - apply transmitted_seq; [apply Hbody | apply IH].
Qed.

(** Sending the command only sends keys. *)
Lemma sendCommand_transmitted pane cmd raw noEnter w :
  transmitted os w (sendCommand os pane cmd raw noEnter w).
Proof.
  unfold sendCommand.
  destruct (truthy noEnter); [destruct (includes specialKeys cmd)|destruct (truthy raw)].
  - by apply transmitted_send.
  - apply forOf_transmitted. intros char w'. by apply transmitted_send.
  - by apply transmitted_send.
  - by apply transmitted_send.
Qed.

(** The shell check leaves the tracking map alone and sends no key. *)
Lemma checkPaneRunsShell_frame pane raw noEnter w w' r :
  checkPaneRunsShell os pane raw noEnter w = (w', r) ->
  activeCommands w' = activeCommands w
  /\ (spawned w' = spawned w
      \/ spawned w' = spawned w ++ [lit "tmux " ++ currentCommandQuery pane]).
Proof.
  unfold checkPaneRunsShell.
  destruct (negb (truthy raw) && negb (truthy noEnter)).
  - unfold bind.
    destruct (executeTmux os (currentCommandQuery pane) w) as [w1 [cur|e]] eqn:Hq;
      apply executeTmux_frame in Hq as (Hcmds & _ & Hspawned).
    + destruct (negb (includes VALID_SHELLS (toLowerCase cur)));
        intros [= <- _]; auto.
    + intros [= <- _]; auto.
  - intros [= <- _]; auto.
Qed.

(** [executeCommand] is the shell check, then the registration, then the
    transmission. *)
Lemma executeCommand_phases uuid now pane cmd raw noEnter w w1 :
  checkPaneRunsShell os pane raw noEnter w = (w1, Return tt) ->
  let registered :=
    {| activeCommands :=
         <[uuid := newExecution uuid pane cmd now raw noEnter]> (activeCommands w1);
       shellConfig := shellConfig w1;
       spawned := spawned w1 |} in
  executeCommand os uuid now pane cmd raw noEnter w
  = match sendCommand os pane cmd raw noEnter registered with
    | (w', Return _) => (w', Return uuid)
    | (w', Throw e) => (w', Throw e)
    end.
Proof.
  intros Hcheck registered. unfold executeCommand, bind at 1. rewrite Hcheck.
  unfold bind at 1. simpl. fold registered. unfold bind.
  by destruct (sendCommand os pane cmd raw noEnter registered) as [w' [[]|e]].
Qed.

End Dispatcher.

(** C10. When the shell check passes, no key has been sent yet; the record
    is then put in the tracking map with status [pending], and the keys are
    sent from that world.  Whether the transmission returns or a command line
    of it fails, the map afterwards is the old map with the record added: a
    failure is thrown to the caller as it is, the identifier is not returned,
    and the pending record stays tracked. *)
Theorem executeCommand_registers_before_sending
    (os : OS) (w w1 : World) (uuid : jsstring) (now : Date)
    (paneId command : jsstring) (rawMode noEnter : option bool) :
  checkPaneRunsShell os paneId rawMode noEnter w = (w1, Return tt) ->
  let record := newExecution uuid paneId command now rawMode noEnter in
  let registered :=
    {| activeCommands := <[uuid := record]> (activeCommands w1);
       shellConfig := shellConfig w1;
       spawned := spawned w1 |} in
  let run := executeCommand os uuid now paneId command rawMode noEnter w in
  status record = pending
  /\ (spawned w1 = spawned w
      \/ spawned w1 = spawned w ++ [lit "tmux " ++ currentCommandQuery paneId])
  /\ run = match sendCommand os paneId command rawMode noEnter registered with
           | (w', Return _) => (w', Return uuid)
           | (w', Throw e) => (w', Throw e)
           end
  /\ activeCommands run.1 = <[uuid := record]> (activeCommands w)
  /\ (exists sent,
        spawned run.1 = spawned w1 ++ sent
        /\ Forall (fun line => isSendKeys line = true) sent
        /\ match run.2 with
           | Return commandId => commandId = uuid /\ allSucceed os (spawned w1) sent
           | Throw e =>
               exists before line error_message,
                 sent = before ++ [line]
                 /\ allSucceed os (spawned w1) before
                 /\ os (spawned w1 ++ before) line = ExecFailed error_message
                 /\ e = failedToExecute error_message
           end)
  /\ (forall e, run.2 = Throw e -> activeCommands run.1 !! uuid = Some record).
Proof.
  intros Hcheck record registered run.
  pose proof (executeCommand_phases os uuid now paneId command rawMode noEnter w w1 Hcheck)
    as Hphases.
  fold record registered run in Hphases. simpl in Hphases.
  destruct (checkPaneRunsShell_frame os _ _ _ _ _ _ Hcheck) as [Hcmds Hspawned].
  pose proof (sendCommand_transmitted os paneId command rawMode noEnter registered)
    as (Hcmds' & _ & sent & Hsent & Hkeys & Hout).
  assert (activeCommands run.1 = <[uuid := record]> (activeCommands w)) as Hmap.
  { rewrite Hphases.
    destruct (sendCommand os paneId command rawMode noEnter registered) as [w' [[]|e]];
      simpl in *; by rewrite Hcmds', Hcmds. }
  split; [done|]. split; [done|]. split; [done|]. split; [done|].
  split.
  - exists sent. rewrite Hphases.
    destruct (sendCommand os paneId command rawMode noEnter registered) as [w' [[]|e]];
      simpl in *; repeat split; done.
  - intros e _. rewrite Hmap. apply lookup_insert_eq.
Qed.

Lemma executeCommand_registers_before_sending_witness :
  let run :=
    executeCommand (sendsFail (lit "%1") (lit "bash")) (lit "c-2") 2000%float
      (lit "%1") (lit "ls") None None emptyWorld in
  run.2 = Throw (failedToExecute (lit "no server running"))
  /\ activeCommands run.1 !! lit "c-2"
     = Some (newExecution (lit "c-2") (lit "%1") (lit "ls") 2000%float None None).
Proof.
  split; [reflexivity|].
  destruct (executeCommand_registers_before_sending
              (sendsFail (lit "%1") (lit "bash")) emptyWorld
              (checkPaneRunsShell (sendsFail (lit "%1") (lit "bash")) (lit "%1")
                 None None emptyWorld).1
              (lit "c-2") 2000%float (lit "%1") (lit "ls") None None eq_refl)
    as (_ & _ & _ & _ & _ & Htracked).
  exact (Htracked (failedToExecute (lit "no server running")) eq_refl).
Defined.

(** C8, as the code has it.  In normal mode (neither [rawMode] nor
    [noEnter]), when the name of the pane's current command, lower-cased, is
    not in [VALID_SHELLS], [executeCommand] throws an error whose message
    holds that name as the pane reported it; the only command line spawned is
    the query, so no key is sent and no record is registered.  When [rawMode]
    or [noEnter] is set, the check makes no query and passes. *)
Theorem executeCommand_rejects_non_shell
    (os : OS) (w : World) (uuid : jsstring) (now : Date)
    (paneId command : jsstring) (rawMode noEnter : option bool) :
  (truthy rawMode = false ->
   truthy noEnter = false ->
   forall w1 currentCommand,
     executeTmux os (currentCommandQuery paneId) w = (w1, Return currentCommand) ->
     includes VALID_SHELLS (toLowerCase currentCommand) = false ->
     executeCommand os uuid now paneId command rawMode noEnter w
     = (w1, Throw (notAShell paneId currentCommand))
     /\ (exists before after,
           message (notAShell paneId currentCommand)
           = before ++ currentCommand ++ after)
     /\ activeCommands w1 = activeCommands w
     /\ spawned w1 = spawned w ++ [lit "tmux " ++ currentCommandQuery paneId]
     /\ isSendKeys (lit "tmux " ++ currentCommandQuery paneId) = false)
  /\ ((truthy rawMode || truthy noEnter) = true ->
      checkPaneRunsShell os paneId rawMode noEnter w = (w, Return tt)).
Proof.
  split.
  - intros Hraw HnoEnter w1 currentCommand Hquery Hshell.
    split.
    + unfold executeCommand, bind at 1, checkPaneRunsShell.
      rewrite Hraw, HnoEnter. simpl. unfold bind at 1.
      by rewrite Hquery, Hshell.
    + split.
      { exists (lit "Cannot execute command: pane " ++ paneId ++ lit " is running '"),
          (lit "', not a shell. Use rawMode for interactive applications.").
        unfold notAShell, message. by rewrite <- !app_assoc. }
      apply executeTmux_frame in Hquery as (? & _ & ?).
      split; [done|]. split; [done|]. reflexivity.
  - intros Hskip. unfold checkPaneRunsShell.
    by destruct (truthy rawMode), (truthy noEnter).
Qed.

Lemma executeCommand_rejects_non_shell_witness :
  executeCommand (printing (lit "vim")) (lit "c-2") 2000%float
    (lit "%1") (lit "ls") None None emptyWorld
  = ({| activeCommands := ∅;
        shellConfig := {| type := bash |};
        spawned := [lit "tmux " ++ currentCommandQuery (lit "%1")] |},
     Throw (notAShell (lit "%1") (lit "vim"))).
Proof.
  destruct (executeCommand_rejects_non_shell (printing (lit "vim")) emptyWorld
              (lit "c-2") 2000%float (lit "%1") (lit "ls") None None)
    as [Hreject _].
  destruct (Hreject eq_refl eq_refl
              (executeTmux (printing (lit "vim")) (currentCommandQuery (lit "%1")) emptyWorld).1
              (lit "vim") eq_refl eq_refl)
    as [Hrun _].
  exact Hrun.
Defined.

(** C8 as worded fails: the pane reports [BASH], a name that is not in the
    allow-list, in normal mode, and the command is sent all the same. *)
Lemma executeCommand_accepts_upper_case_shell :
  let os := printing (lit "BASH") in
  let run := executeCommand os (lit "c-2") 2000%float (lit "%1") (lit "ls") None None emptyWorld in
  (executeTmux os (currentCommandQuery (lit "%1")) emptyWorld).2 = Return (lit "BASH")
  /\ (lit "BASH" ∉ VALID_SHELLS)
  /\ run.2 = Return (lit "c-2")
  /\ spawned run.1
     = [lit "tmux " ++ currentCommandQuery (lit "%1");
        lit "tmux send-keys -t '%1' '__mcp_start' Enter 'ls' Enter"].
Proof.
  split; [reflexivity|]. split; [|split; reflexivity].
  apply (bool_decide_unpack _). by vm_compute.
Qed.

(** C9. After [setShellConfig], the end-marker text is the prefix followed
    by [$status] when the configured string is [fish] and by [$?] for every
    other string; a string other than [bash], [zsh] and [fish] configures
    [bash]. *)
Theorem getEndMarkerText_after_setShellConfig (config_type : jsstring) (w : World) :
  let w' := (setShellConfig config_type w).1 in
  (getEndMarkerText w').2
  = Return (endMarkerPrefix
            ++ (if bool_decide (config_type = lit "fish") then lit "$status" else lit "$?"))
  /\ type (shellConfig w')
     = (if bool_decide (config_type = lit "fish") then fish
        else if bool_decide (config_type = lit "zsh") then zsh
        else bash)
  /\ (getEndMarkerText (setShellConfig (lit "bash") w).1).2
     = Return (lit "TMUX_MCP_DONE_$?")
  /\ (getEndMarkerText (setShellConfig (lit "zsh") w).1).2
     = Return (lit "TMUX_MCP_DONE_$?")
  /\ (getEndMarkerText (setShellConfig (lit "fish") w).1).2
     = Return (lit "TMUX_MCP_DONE_$status").
Proof.
  intros w'. split; [|split; [|done]].
  - unfold getEndMarkerText. subst w'. unfold setShellConfig. simpl.
    repeat case_bool_decide; subst; try done.
  - subst w'. unfold setShellConfig. simpl.
    repeat case_bool_decide; subst; try done.
Qed.

(** ** The invariant of pending records *)

Lemma resolve_cases c content c' :
  resolve c content = Some c' ->
  c' = set_result rawModeAdvisory c
  \/ c' = set_result notCaptured c
  \/ status c' <> pending.
Proof.
  unfold resolve. destruct (truthy (rawMode c)); [intros [= <-]; auto|].
  destruct (_ || _); [intros [= <-]; auto|].
  destruct (endMarkerRegex_match _); [|done].
  intros [= <-]. right. right. simpl. by destruct (strictEq _ _).
Qed.

Lemma executeCommand_activeCommands os uuid now pane cmd raw noEnter w :
  let w' := (executeCommand os uuid now pane cmd raw noEnter w).1 in
  activeCommands w' = activeCommands w
  \/ activeCommands w'
     = <[uuid := newExecution uuid pane cmd now raw noEnter]> (activeCommands w).
Proof.
  destruct (checkPaneRunsShell os pane raw noEnter w) as [w1 [[]|e]] eqn:Hcheck.
  - right. simpl.
    rewrite (executeCommand_phases os uuid now pane cmd raw noEnter w w1 Hcheck).
    destruct (checkPaneRunsShell_frame os _ _ _ _ _ _ Hcheck) as [Hcmds _].
    match goal with |- context [sendCommand os pane cmd raw noEnter ?registered] =>
      pose proof (sendCommand_transmitted os pane cmd raw noEnter registered)
        as (Hcmds' & _);
      destruct (sendCommand os pane cmd raw noEnter registered) as [w' [[]|e]]
    end; simpl in *; congruence.
  - left. simpl. unfold executeCommand, bind at 1. rewrite Hcheck. simpl.
    by apply checkPaneRunsShell_frame in Hcheck as [? _].
Qed.

Lemma checkCommandStatus_activeCommands os commandId w :
  let w' := (checkCommandStatus os commandId w).1 in
  activeCommands w' = activeCommands w
  \/ exists c c' content,
       activeCommands w !! commandId = Some c
       /\ status c = pending
       /\ resolve c content = Some c'
       /\ activeCommands w' = <[commandId := c']> (activeCommands w).
Proof.
  simpl. destruct (checkCommandStatus os commandId w) as [w' r] eqn:Hrun. simpl.
  unfold checkCommandStatus, bind, readCommands in Hrun.
  destruct (activeCommands w !! commandId) as [c|] eqn:Hget;
    [|injection Hrun as <- _; by left].
  destruct (status c) eqn:Hstatus; simpl in Hrun;
    try (injection Hrun as <- _; by left).
  destruct (capturePaneContent os (paneId c) 1000 false w) as [w1 [content|e]] eqn:Hcapture;
    apply capturePaneContent_frame in Hcapture.
  - destruct (resolve c content) as [c'|] eqn:Hresolve; injection Hrun as <- _.
    + right. exists c, c', content. simpl. by rewrite Hcapture.
    + by left.
  - injection Hrun as <- _. by left.
Qed.

Lemma pendingIsUnresolved_insert w w' commandId c :
  pendingIsUnresolved w ->
  activeCommands w' = <[commandId := c]> (activeCommands w) ->
  (status c = pending ->
   exitCode c = None
   /\ (result c = None \/ result c = Some rawModeAdvisory \/ result c = Some notCaptured)) ->
  pendingIsUnresolved w'.
Proof.
  intros Hinv Hmap Hc k c' Hget Hpending. rewrite Hmap in Hget.
  destruct (decide (commandId = k)) as [->|Hne].
  - rewrite lookup_insert_eq in Hget. injection Hget as <-. auto.
  - rewrite lookup_insert_ne in Hget by done. eauto.
Qed.

Lemma pendingIsUnresolved_subset w w' :
  pendingIsUnresolved w ->
  (forall (k : jsstring) c, activeCommands w' !! k = Some c -> activeCommands w !! k = Some c) ->
  pendingIsUnresolved w'.
Proof. intros Hinv Hsub k c Hget Hpending. eauto. Qed.

(** C5, as the operations keep it.  Each operation takes a world in which
    every pending record has no exit code and a result that is absent or
    one of the two placeholder messages to a world of the same kind. *)
Theorem operations_keep_pending_unresolved (os : OS) (op : Operation) (w : World) :
  pendingIsUnresolved w -> pendingIsUnresolved (perform os op w).
Proof.
  intros Hinv. destruct op as [uuid now pane cmd raw noEnter|commandId|commandId| |now maxAge|config_type| ].
  - destruct (executeCommand_activeCommands os uuid now pane cmd raw noEnter w)
      as [Hsame|Hnew].
    + apply (pendingIsUnresolved_subset w); [done|]. simpl in *. by rewrite Hsame.
    + apply (pendingIsUnresolved_insert w _ _ _ Hinv Hnew). simpl. auto.
  - destruct (checkCommandStatus_activeCommands os commandId w)
      as [Hsame|(c & c' & content & Hget & Hpending & Hresolve & Hnew)].
    + apply (pendingIsUnresolved_subset w); [done|]. simpl in *. by rewrite Hsame.
    + apply (pendingIsUnresolved_insert w _ _ _ Hinv Hnew).
      destruct (Hinv commandId c Hget Hpending) as [Hcode Hresult].
      destruct (resolve_cases c content c' Hresolve) as [->| [->|Hterminal]];
        simpl; auto. done.
  - done.
  - done.
  - apply (pendingIsUnresolved_subset w); [done|]. intros k c Hget. simpl in Hget.
    destruct (cleanupOldCommands_lookup now maxAge w) as [_ Hlookup].
    simpl in Hlookup. rewrite Hlookup in Hget.
    destruct (activeCommands w !! k) as [c0|]; [|done].
    by destruct (isStale _ _ c0).
  - done.
  - done.
Qed.

Lemma pendingIsBare_sampleWorld rawMode : pendingIsBare (sampleWorld rawMode).
Proof.
  intros k c Hget _. simpl in Hget.
  apply lookup_singleton_Some in Hget as [_ <-]. done.
Qed.

Lemma operations_keep_pending_unresolved_witness :
  pendingIsUnresolved
    (perform (printing scenario) (CheckCommandStatus (lit "c-1")) (sampleWorld (Some true))).
Proof.
  apply (operations_keep_pending_unresolved (printing scenario)
           (CheckCommandStatus (lit "c-1")) (sampleWorld (Some true))).
  intros k c Hget Hpending.
  destruct (pendingIsBare_sampleWorld (Some true) k c Hget Hpending) as [-> ->]. auto.
Defined.

(** C5 as worded fails: a status check of a pending raw record stores the
    advisory text as its result and leaves it pending. *)
Lemma checkCommandStatus_sets_result_of_pending :
  let w := sampleWorld (Some true) in
  let w' := perform (printing scenario) (CheckCommandStatus (lit "c-1")) w in
  pendingIsBare w
  /\ ~ pendingIsBare w'
  /\ exists c',
      activeCommands w' !! lit "c-1" = Some c'
      /\ status c' = pending
      /\ result c' = Some rawModeAdvisory.
Proof.
  split; [apply pendingIsBare_sampleWorld|]. split.
  - intros Hbare.
    destruct (Hbare (lit "c-1") (set_result rawModeAdvisory (sampleExecution (Some true))))
      as [_ Hresult]; [reflexivity | reflexivity | discriminate].
  - exists (set_result rawModeAdvisory (sampleExecution (Some true))).
    repeat split; reflexivity.
Qed.

(** ** The extracted output *)

(** The scenario of the specification: [echo hi] in a pane running [bash]. *)
Lemma checkCommandStatus_scenario :
  let run := checkCommandStatus (printing scenario) (lit "c-1") (sampleWorld None) in
  exists c',
    run.2 = Return (Some c')
    /\ activeCommands run.1 !! lit "c-1" = Some c'
    /\ status c' = completed
    /\ exitCode c' = Some 0%float
    /\ result c' = Some (lit "hi")
    /\ result c' = Some (spec_output (trim scenario) 3 29).
Proof.
  exists (set_result (lit "hi")
            (set_exitCode 0%float (set_status completed (sampleExecution None)))).
  repeat split; by vm_compute.
Qed.

(** Stale markers of an earlier run are passed over: the check resolves
    against the last pair. *)
Lemma checkCommandStatus_two_runs :
  let run := checkCommandStatus (printing twoRuns) (lit "c-1") (sampleWorld None) in
  exists c',
    run.2 = Return (Some c')
    /\ status c' = completed
    /\ exitCode c' = Some 0%float
    /\ result c' = Some (lit "ok").
Proof.
  exists (set_result (lit "ok")
            (set_exitCode 0%float (set_status completed (sampleExecution None)))).
  repeat split; by vm_compute.
Qed.

(** A non-zero exit code resolves the record to [error]. *)
Lemma checkCommandStatus_not_found :
  let run := checkCommandStatus (printing notFound) (lit "c-1") (sampleWorld None) in
  exists c',
    run.2 = Return (Some c')
    /\ status c' = error
    /\ exitCode c' = Some 127%float
    /\ result c' = Some (lit "bash: frob: command not found").
Proof.
  exists (set_result (lit "bash: frob: command not found")
            (set_exitCode 127%float (set_status error (sampleExecution None)))).
  repeat split; by vm_compute.
Qed.

(** C4, where the code departs from it.  After a command that prints
    nothing the text between the markers is one line, the echoed command
    line; the status check resolves the record and keeps that line as the
    result, where discarding the first line leaves the empty string. *)
Theorem checkCommandStatus_keeps_a_lone_first_line :
  let content := trim silentCommand in
  let run := checkCommandStatus (printing silentCommand) (lit "c-1") (sampleWorld None) in
  lastIndexOf content startMarkerText = 0
  /\ lastIndexOf content endMarkerPrefix = 22
  /\ trim (substring content 14 22) = lit "$ true"
  /\ spec_output content 0 22 = []
  /\ exists c',
      run.2 = Return (Some c')
      /\ activeCommands run.1 !! lit "c-1" = Some c'
      /\ status c' = completed
      /\ exitCode c' = Some 0%float
      /\ result c' = Some (lit "$ true").
Proof.
  repeat (split; [by vm_compute|]).
  exists (set_result (lit "$ true")
            (set_exitCode 0%float (set_status completed (sampleExecution None)))).
  repeat split; by vm_compute.
Qed.

(** Between two positions in range, [substring] is the text from the first
    up to the second. *)
Lemma substring_between (s : jsstring) a b :
  0 <= a -> a <= b -> b <= len s ->
  substring s a b = take (Z.to_nat (b - a)) (drop (Z.to_nat a) s).
Proof.
  intros Ha Hab Hb. unfold substring.
  replace (Z.min (Z.max a 0) (len s)) with a by lia.
  replace (Z.min (Z.max b 0) (len s)) with b by lia.
  by replace (Z.min a b) with a by lia; replace (Z.max a b) with b by lia.
Qed.

Lemma indexOf_from_LF (s : jsstring) k :
  0 <= k ->
  ((LF ∉ s) /\ indexOf_from [LF] s k = -1)
  \/ ((LF ∈ s)
      /\ k <= indexOf_from [LF] s k
      /\ drop (Z.to_nat (indexOf_from [LF] s k - k + 1)) s = dropFirstLine s).
Proof.
  revert k. induction s as [|c s IH]; intros k Hk.
  - left. split; [apply not_elem_of_nil | done].
  - change (indexOf_from [LF] (c :: s) k)
      with (if (LF =? c)%N && true then k else indexOf_from [LF] s (k + 1)).
    change (dropFirstLine (c :: s)) with (if (c =? LF)%N then s else dropFirstLine s).
    rewrite andb_true_r, (N.eqb_sym LF c).
    destruct (c =? LF)%N eqn:E.
    + apply N.eqb_eq in E. subst c. right.
      split; [apply list_elem_of_here|]. split; [lia|].
      by replace (k - k + 1) with 1 by lia.
    + apply N.eqb_neq in E.
      destruct (IH (k + 1)) as [[Hnot Hidx] | (Hin & Hle & Hdrop)]; [lia| |].
      * left. split; [|done]. by apply not_elem_of_cons.
      * right. split; [by apply list_elem_of_further|]. split; [lia|].
        rewrite <- Hdrop.
        by replace (Z.to_nat (indexOf_from [LF] s (k + 1) - k + 1))
          with (S (Z.to_nat (indexOf_from [LF] s (k + 1) - (k + 1) + 1))) by lia.
Qed.

(** Line 358 discards the first line when there is a line break, and keeps
    the text whole when there is none. *)
Lemma substring_after_first_line (s : jsstring) :
  substring_from s (indexOf s [LF] + 1)
  = if bool_decide (LF ∈ s) then dropFirstLine s else s.
Proof.
  unfold indexOf.
  destruct (indexOf_from_LF s 0) as [[Hnot Hidx] | (Hin & Hle & Hdrop)]; [lia| |].
  - rewrite Hidx, bool_decide_eq_false_2 by done.
    by rewrite substring_from_drop.
  - rewrite bool_decide_eq_true_2 by done.
    rewrite substring_from_drop by lia. by rewrite Z.sub_0_r in Hdrop.
Qed.

(** The output the code extracts against the output the specification
    describes: they agree when the end marker starts at or after the end of
    the start marker and the trimmed text between them has a line break (or
    is empty); when that text is a single line, the code keeps it. *)
Lemma extractOutput_against_spec (content : jsstring) startIndex endIndex :
  0 <= startIndex ->
  startIndex + len startMarkerText <= endIndex ->
  endIndex <= len content ->
  let between := trim (substring content (startIndex + len startMarkerText) endIndex) in
  ((LF ∈ between) \/ between = [] ->
   extractOutput content startIndex endIndex = spec_output content startIndex endIndex)
  /\ ((LF ∉ between) ->
      extractOutput content startIndex endIndex = trim between
      /\ spec_output content startIndex endIndex = []).
Proof.
  intros Hs Hse He between.
  unfold extractOutput, spec_output. fold between.
  rewrite substring_after_first_line.
  assert (len startMarkerText = 14) as Hlen by done.
  rewrite <- (substring_between content _ endIndex) by lia. fold between.
  assert (forall s : jsstring, LF ∉ s -> dropFirstLine s = []) as Hlone.
  { induction s as [|c s IH]; [done|]. intros Hnot.
    apply not_elem_of_cons in Hnot as [Hc Hs']. simpl.
    destruct (c =? LF)%N eqn:E; [apply N.eqb_eq in E; congruence|]. auto. }
  split.
  - intros [Hin | Hnil].
    + by rewrite bool_decide_eq_true_2.
    + rewrite Hnil. done.
  - intros Hnot. rewrite bool_decide_eq_false_2 by done.
    split; [done|]. by rewrite Hlone.
Qed.

(** * Further properties of the code *)

(** ** What the operations do to the tracking map *)

Lemma resolve_fields c content c' :
  resolve c content = Some c' ->
  id c' = id c /\ paneId c' = paneId c /\ command c' = command c
  /\ startTime c' = startTime c /\ rawMode c' = rawMode c.
Proof.
  unfold resolve. destruct (truthy (rawMode c)); [by intros [= <-]|].
  destruct (_ || _); [by intros [= <-]|].
  destruct (endMarkerRegex_match _); [|done]. by intros [= <-].
Qed.

Lemma isStale_terminal now threshold c :
  isStale now threshold c = true -> status c <> pending.
Proof.
  unfold isStale. intros H Hpending. rewrite Hpending in H. done.
Qed.

(** What one operation does to the entry of [k], unless it registers [k]:
    nothing, or a cleanup evicts a record that is not pending, or a status
    check of [k] resolves the pending record. *)
Lemma perform_lookup os op w (k : jsstring) :
  ~ registers k op ->
  activeCommands (perform os op w) !! k = activeCommands w !! k
  \/ (isCleanup op
      /\ activeCommands (perform os op w) !! k = None
      /\ exists c, activeCommands w !! k = Some c /\ status c <> pending)
  \/ (op = CheckCommandStatus k
      /\ exists c c' content,
          activeCommands w !! k = Some c
          /\ status c = pending
          /\ resolve c content = Some c'
          /\ activeCommands (perform os op w) !! k = Some c').
Proof.
  intros Hreg.
  destruct op as [uuid now pane cmd raw noEnter|commandId|commandId| |now maxAge|config_type| ];
    try (by left).
  - left. simpl in Hreg.
    destruct (executeCommand_activeCommands os uuid now pane cmd raw noEnter w)
      as [Hsame|Hnew]; simpl in *; [by rewrite Hsame|].
    rewrite Hnew. by apply lookup_insert_ne.
  - destruct (checkCommandStatus_activeCommands os commandId w)
      as [Hsame|(c & c' & content & Hget & Hpending & Hresolve & Hnew)];
      simpl in *; [left; by rewrite Hsame|].
    destruct (decide (commandId = k)) as [->|Hne].
    + right. right. split; [done|]. exists c, c', content.
      rewrite Hnew. by rewrite lookup_insert_eq.
    + left. rewrite Hnew. by apply lookup_insert_ne.
  - destruct (cleanupOldCommands_lookup now maxAge w) as [_ Hlookup].
    simpl in *. rewrite Hlookup.
    destruct (activeCommands w !! k) as [c|] eqn:Hget; [|by left].
    destruct (isStale now _ c) eqn:Hstale; [|by left].
    right. left. split; [done|]. split; [done|].
    exists c. split; [done|]. by apply isStale_terminal in Hstale.
Qed.

Lemma classic_registers (k : jsstring) op : registers k op \/ ~ registers k op.
Proof.
  destruct op as [uuid ? ? ? ? ?| | | | | | ]; simpl; try tauto.
  destruct (decide (uuid = k)); auto.
Qed.

Lemma performAll_cons os op ops w :
  performAll os (op :: ops) w = performAll os ops (perform os op w).
Proof. done. Qed.

(** An identifier that is not tracked stays untracked until an
    [executeCommand] registers it. *)
Lemma untracked_stays_untracked os ops w (k : jsstring) :
  activeCommands w !! k = None ->
  Forall (fun op => ~ registers k op) ops ->
  activeCommands (performAll os ops w) !! k = None.
Proof.
  revert w. induction ops as [|op ops IH]; intros w Hnone Hops; [done|].
  apply Forall_cons in Hops as [Hop Hops]. rewrite performAll_cons.
  apply IH; [|done].
  destruct (perform_lookup os op w k Hop)
    as [Hsame | [(_ & Hgone & _) | (_ & c & c' & content & Hget & _)]];
    [by rewrite Hsame | done | congruence].
Qed.

(** X1. A status check never adds or removes a tracked identifier and
    never changes a record other than the one asked about; of that record it
    keeps the identifier, the pane, the command, the start time and the raw
    flag.  For an unknown identifier it returns [null], and for a record that
    is no longer pending it returns the record; in both cases it runs no
    command line and leaves the world as it was. *)
Theorem checkCommandStatus_touches_one_record
    (os : OS) (commandId : jsstring) (w : World) :
  let run := checkCommandStatus os commandId w in
  (forall k : jsstring, k <> commandId ->
     activeCommands run.1 !! k = activeCommands w !! k)
  /\ dom (activeCommands run.1) = dom (activeCommands w)
  /\ (forall c c',
        activeCommands w !! commandId = Some c ->
        activeCommands run.1 !! commandId = Some c' ->
        id c' = id c /\ paneId c' = paneId c /\ command c' = command c
        /\ startTime c' = startTime c /\ rawMode c' = rawMode c)
  /\ (activeCommands w !! commandId = None -> run = (w, Return None))
  /\ (forall c,
        activeCommands w !! commandId = Some c ->
        status c <> pending ->
        run = (w, Return (Some c))).
Proof.
  intros run.
  pose proof (checkCommandStatus_activeCommands os commandId w) as Hmap.
  simpl in Hmap. fold run in Hmap.
  split; [|split; [|split; [|split]]].
  - intros k Hk.
    destruct Hmap as [->|(c & c' & content & _ & _ & _ & ->)]; [done|].
    by apply lookup_insert_ne.
  - destruct Hmap as [->|(c & c' & content & Hget & _ & _ & ->)]; [done|].
    rewrite dom_insert_L. apply subseteq_union_1_L, singleton_subseteq_l.
    by apply elem_of_dom_2 in Hget.
  - intros c c' Hget Hget'.
    destruct Hmap as [Hsame|(c0 & c0' & content & Hget0 & _ & Hresolve & Hnew)].
    + rewrite Hsame, Hget in Hget'. by injection Hget' as <-.
    + rewrite Hnew, lookup_insert_eq in Hget'. injection Hget' as <-.
      rewrite Hget in Hget0. injection Hget0 as <-.
      by apply resolve_fields in Hresolve.
  - intros Hnone. subst run. unfold checkCommandStatus, bind, readCommands.
    by rewrite Hnone.
  - intros c Hget Hterminal. subst run. unfold checkCommandStatus, bind, readCommands.
    rewrite Hget. by destruct (status c).
Qed.

(** X2. Once a record is [completed] or [error], no sequence of operations
    changes it: until an [executeCommand] registers the same identifier
    again, the record is either tracked exactly as it was or, after a
    cleanup, gone; without a cleanup it is still there. *)
Theorem terminal_record_is_final
    (os : OS) (ops : list Operation) (w : World)
    (commandId : jsstring) (c : CommandExecution) :
  activeCommands w !! commandId = Some c ->
  status c <> pending ->
  Forall (fun op => ~ registers commandId op) ops ->
  let w' := performAll os ops w in
  (activeCommands w' !! commandId = Some c \/ activeCommands w' !! commandId = None)
  /\ (Forall (fun op => ~ isCleanup op) ops -> activeCommands w' !! commandId = Some c).
Proof.
  intros Hget Hterminal Hops. simpl.
  revert w Hget. induction ops as [|op ops IH]; intros w Hget; [by split; [left|]|].
  apply Forall_cons in Hops as [Hop Hops]. rewrite performAll_cons.
  destruct (perform_lookup os op w commandId Hop)
    as [Hsame | [(Hcleanup & Hgone & _) | (_ & c0 & c' & content & Hget0 & Hpending & _)]].
  - rewrite Hget in Hsame. destruct (IH Hops _ Hsame) as [Hor Hkept].
    split; [done|]. intros Hnc. apply Forall_cons in Hnc as [_ Hnc]. auto.
  - split.
    + right. by apply untracked_stays_untracked.
    + intros Hnc. by apply Forall_cons in Hnc as [Hnc _].
  - congruence.
Qed.

Lemma terminal_record_is_final_witness :
  activeCommands
    (performAll (printing scenario)
       [CheckCommandStatus (lit "c-1"); GetCommand (lit "c-1");
        CheckCommandStatus (lit "c-1")]
       finishedWorld) !! lit "c-1"
  = Some finishedExecution.
Proof.
  destruct (terminal_record_is_final (printing scenario)
              [CheckCommandStatus (lit "c-1"); GetCommand (lit "c-1");
               CheckCommandStatus (lit "c-1")]
              finishedWorld (lit "c-1") finishedExecution eq_refl)
    as [_ Hkept]; [discriminate | repeat (constructor; [simpl; tauto|]); constructor|].
  apply Hkept. repeat (constructor; [simpl; tauto|]). constructor.
Defined.

(** X3. A pending record with [rawMode] set is never released: through any
    sequence of status checks, cleanups and other operations that do not
    register its identifier again, it stays tracked, stays [pending] and
    keeps its exit code unset or as it was. *)
Theorem rawMode_record_is_never_released
    (os : OS) (ops : list Operation) (w : World)
    (commandId : jsstring) (c : CommandExecution) :
  activeCommands w !! commandId = Some c ->
  status c = pending ->
  truthy (rawMode c) = true ->
  Forall (fun op => ~ registers commandId op) ops ->
  exists c',
    activeCommands (performAll os ops w) !! commandId = Some c'
    /\ status c' = pending
    /\ exitCode c' = exitCode c
    /\ rawMode c' = rawMode c
    /\ command c' = command c.
Proof.
  intros Hget Hpending Hraw Hops.
  revert w c Hget Hpending Hraw. induction ops as [|op ops IH];
    intros w c Hget Hpending Hraw; [by exists c|].
  apply Forall_cons in Hops as [Hop Hops]. rewrite performAll_cons.
  destruct (perform_lookup os op w commandId Hop)
    as [Hsame | [(_ & _ & c0 & Hget0 & Hterminal)
                | (_ & c0 & c' & content & Hget0 & _ & Hresolve & Hget')]].
  - rewrite Hget in Hsame. by apply (IH Hops _ c).
  - congruence.
  - rewrite Hget in Hget0. injection Hget0 as <-.
    rewrite (resolve_rawMode c content Hraw) in Hresolve. injection Hresolve as <-.
    destruct (IH Hops _ (set_result rawModeAdvisory c) Hget' Hpending Hraw)
      as (c'' & ? & ? & ? & ? & ?).
    by exists c''.
Qed.

Lemma rawMode_record_is_never_released_witness :
  exists c',
    activeCommands
      (performAll (printing scenario)
         [CheckCommandStatus (lit "c-1"); CleanupOldCommands 7200000%float None]
         (sampleWorld (Some true))) !! lit "c-1" = Some c'
    /\ status c' = pending
    /\ exitCode c' = None
    /\ rawMode c' = Some true
    /\ command c' = lit "echo hi".
Proof.
  apply (rawMode_record_is_never_released (printing scenario)
           [CheckCommandStatus (lit "c-1"); CleanupOldCommands 7200000%float None]
           (sampleWorld (Some true)) (lit "c-1") (sampleExecution (Some true))
           eq_refl eq_refl eq_refl).
  repeat (constructor; [simpl; tauto|]). constructor.
Defined.

(** X4. Every operation keeps the tracking map keyed by the records' own
    identifiers: if each tracked record carries the identifier it is stored
    under, the same holds afterwards. *)
Theorem operations_keep_records_keyed (os : OS) (op : Operation) (w : World) :
  keyedById w -> keyedById (perform os op w).
Proof.
  intros Hinv k c' Hget'.
  destruct (classic_registers k op) as [Hreg|Hreg].
  - destruct op as [uuid now pane cmd raw noEnter| | | | | | ]; try done.
    simpl in Hreg. subst uuid.
    destruct (executeCommand_activeCommands os k now pane cmd raw noEnter w)
      as [Hsame|Hnew]; simpl in *.
    + rewrite Hsame in Hget'. eauto.
    + rewrite Hnew, lookup_insert_eq in Hget'. by injection Hget' as <-.
  - destruct (perform_lookup os op w k Hreg)
      as [Hsame | [(_ & Hgone & _) | (_ & c & c0 & content & Hget & _ & Hresolve & Hnew)]].
    + rewrite Hsame in Hget'. eauto.
    + congruence.
    + rewrite Hnew in Hget'. injection Hget' as <-.
      apply resolve_fields in Hresolve as (-> & _). eauto.
Qed.

Lemma operations_keep_records_keyed_witness :
  keyedById (perform (printing scenario) (CheckCommandStatus (lit "c-1")) (sampleWorld None)).
Proof.
  apply (operations_keep_records_keyed (printing scenario)
           (CheckCommandStatus (lit "c-1")) (sampleWorld None)).
  intros k c Hget. simpl in Hget.
  apply lookup_singleton_Some in Hget as [<- <-]. reflexivity.
Defined.

(** ** Submission *)

(** When [executeCommand] returns, the shell check had passed and the
    record is in the map. *)
Lemma executeCommand_returned os uuid now pane cmd raw noEnter w w' commandId :
  executeCommand os uuid now pane cmd raw noEnter w = (w', Return commandId) ->
  commandId = uuid
  /\ (exists w1, checkPaneRunsShell os pane raw noEnter w = (w1, Return tt))
  /\ activeCommands w'
     = <[uuid := newExecution uuid pane cmd now raw noEnter]> (activeCommands w).
Proof.
  intros Hrun.
  destruct (checkPaneRunsShell os pane raw noEnter w) as [w1 [[]|e]] eqn:Hcheck.
  - pose proof (executeCommand_activeCommands os uuid now pane cmd raw noEnter w) as Hmap.
    rewrite (executeCommand_phases os uuid now pane cmd raw noEnter w w1 Hcheck) in Hrun, Hmap.
    destruct (checkPaneRunsShell_frame os _ _ _ _ _ _ Hcheck) as [Hcmds _].
    match type of Hrun with context [sendCommand os pane cmd raw noEnter ?registered] =>
      pose proof (sendCommand_transmitted os pane cmd raw noEnter registered)
        as (Hcmds' & _);
      destruct (sendCommand os pane cmd raw noEnter registered) as [w2 [[]|e]]
    end; [|done].
    injection Hrun as <- <-. simpl in *.
    split; [done|]. split; [by exists w1|]. by rewrite Hcmds', Hcmds.
  - unfold executeCommand, bind at 1 in Hrun. by rewrite Hcheck in Hrun.
Qed.

(** X5. The identifier [executeCommand] returns is the generated one, and
    it is tracked at once: [getCommand] of it gives the pending record with
    the submitted pane, command and mode, [getActiveCommandIds] lists it, and
    no other entry of the map has changed. *)
Theorem executeCommand_then_getCommand
    (os : OS) (w w' : World) (uuid : jsstring) (now : Date)
    (paneId command : jsstring) (rawMode noEnter : option bool) (commandId : jsstring) :
  executeCommand os uuid now paneId command rawMode noEnter w = (w', Return commandId) ->
  commandId = uuid
  /\ getCommand commandId w'
     = (w', Return (Some {| id := commandId; paneId := paneId; command := command;
                            status := pending; startTime := now; result := None;
                            exitCode := None; rawMode := JS.or rawMode noEnter |}))
  /\ (exists ids, getActiveCommandIds w' = (w', Return ids) /\ commandId ∈ ids)
  /\ (forall k : jsstring, k <> commandId ->
        activeCommands w' !! k = activeCommands w !! k).
Proof.
  intros Hrun.
  apply executeCommand_returned in Hrun as (-> & _ & Hmap).
  split; [done|]. split; [|split].
  - unfold getCommand, bind, readCommands, ret. by rewrite Hmap, lookup_insert_eq.
  - eexists. split; [reflexivity|]. rewrite Hmap, dom_insert_L. set_solver.
  - intros k Hk. rewrite Hmap. by apply lookup_insert_ne.
Qed.

Lemma executeCommand_then_getCommand_witness :
  let w' := (executeCommand (printing (lit "bash")) (lit "c-2") 2000%float
               (lit "%1") (lit "ls") None None emptyWorld).1 in
  (getCommand (lit "c-2") w').2
  = Return (Some (newExecution (lit "c-2") (lit "%1") (lit "ls") 2000%float None None)).
Proof.
  destruct (executeCommand_then_getCommand (printing (lit "bash")) emptyWorld
              (executeCommand (printing (lit "bash")) (lit "c-2") 2000%float
                 (lit "%1") (lit "ls") None None emptyWorld).1
              (lit "c-2") 2000%float (lit "%1") (lit "ls") None None (lit "c-2") eq_refl)
    as (_ & Hget & _).
  cbv zeta. rewrite Hget. reflexivity.
Defined.

Lemma concat_chars (s : jsstring) : concat (chars s) = s.
Proof.
  assert (concat (chars s) = s /\ forall c, concat (chars (c :: s)) = c :: s) as [? _];
    [|done].
  induction s as [|d s [IH1 IH2]].
  - done.
  - split; [apply IH2|]. intros c.
    change (chars (c :: d :: s))
      with (if isHighSurrogate c && isLowSurrogate d then [c; d] :: chars s
            else [c] :: chars (d :: s)).
    destruct (isHighSurrogate c && isLowSurrogate d).
    + change (concat ([c; d] :: chars s)) with (c :: d :: concat (chars s)).
      by rewrite IH1.
    + change (concat ([c] :: chars (d :: s))) with (c :: concat (chars (d :: s))).
      by rewrite IH2.
Qed.

Lemma executeTmux_then_ret os args w :
  spawned ((executeTmux os args ;; ret tt) w).1 = spawned w ++ [lit "tmux " ++ args].
Proof.
  unfold bind.
  destruct (executeTmux os args w) as [w1 [out|e]] eqn:Hx;
    apply executeTmux_frame in Hx as (_ & _ & Hspawned); cbn [ret fst]; done.
Qed.

(** The loop of lines 303-305 runs one command line per element, in order,
    and stops at the first that fails. *)
Lemma forOf_executeTmux os (xs : list jsstring) (args : jsstring -> jsstring) w :
  let run := forOf xs (fun x => executeTmux os (args x) ;; ret tt) w in
  exists n,
    (n <= length xs)%nat
    /\ spawned run.1 = spawned w ++ map (fun x => lit "tmux " ++ args x) (take n xs)
    /\ (run.2 = Return tt -> n = length xs).
Proof.
  cbv zeta. set (body := fun x => executeTmux os (args x) ;; ret tt).
  revert w. induction xs as [|x xs IH]; intros w.
  - exists 0%nat. cbn [forOf ret fst snd take map length]. by rewrite app_nil_r.
  - cbn [forOf]. unfold bind.
    pose proof (executeTmux_then_ret os (args x) w) as Hone.
    change ((executeTmux os (args x) ;; ret tt) w) with (body x w) in Hone.
    destruct (body x w) as [w1 [[]|e]]; cbn [fst snd] in *.
    + destruct (IH w1) as (n & Hn & Hsp & Hret).
      exists (S n). cbn [length take map]. split; [lia|]. split.
      * by rewrite Hsp, Hone, <- app_assoc.
      * intros Hr. by rewrite (Hret Hr).
    + exists 1%nat. cbn [length take map]. split; [lia|]. split; [|done].
      by rewrite Hone, take_0.
Qed.

(** X6. What [executeCommand] sends once the shell check has passed.  With
    [noEnter], a named special key goes out as one unquoted argument, and any
    other text goes out one code point per command line, in order, each
    quoted and none followed by [Enter], stopping at the first command line
    that fails; the code points put together are the command.  In raw mode
    one command line carries the quoted command and [Enter]; in normal mode
    one command line carries the hook call [__mcp_start], [Enter], the quoted
    command and [Enter].  The call returns the new id exactly when every
    command line it ran succeeded, and then it ran all of them; otherwise the
    last command line it ran is the first one that failed, every one before
    it succeeded, none after it was run, and that failure is thrown. *)
Theorem executeCommand_transmission
    (os : OS) (w w1 : World) (uuid : jsstring) (now : Date)
    (paneId command : jsstring) (rawMode noEnter : option bool) :
  checkPaneRunsShell os paneId rawMode noEnter w = (w1, Return tt) ->
  let run := executeCommand os uuid now paneId command rawMode noEnter w in
  exists n sent,
    (n <= length (chars command))%nat
    /\ sent
       = (if truthy noEnter then
            if includes specialKeys command then
              [lit "tmux send-keys -t '" ++ paneId ++ lit "' " ++ command]
            else
              map (fun char =>
                     lit "tmux send-keys -t '" ++ paneId ++ lit "' '"
                     ++ escapeQuotes char ++ lit "'")
                (take n (chars command))
          else if truthy rawMode then
            [lit "tmux send-keys -t '" ++ paneId ++ lit "' '"
             ++ escapeQuotes command ++ lit "' Enter"]
          else
            [lit "tmux send-keys -t '" ++ paneId ++ lit "' '__mcp_start' Enter '"
             ++ escapeQuotes command ++ lit "' Enter"])
    /\ spawned run.1 = spawned w1 ++ sent
    /\ match run.2 with
       | Return commandId =>
           commandId = uuid
           /\ n = length (chars command)
           /\ allSucceed os (spawned w1) sent
       | Throw e =>
           exists before line error_message,
             sent = before ++ [line]
             /\ allSucceed os (spawned w1) before
             /\ os (spawned w1 ++ before) line = ExecFailed error_message
             /\ e = failedToExecute error_message
       end
    /\ (run.2 = Return uuid -> n = length (chars command))
    /\ concat (chars command) = command.
Proof.
  intros Hcheck run. subst run.
  rewrite (executeCommand_phases os uuid now paneId command rawMode noEnter w w1 Hcheck).
  match goal with |- context [sendCommand os paneId command rawMode noEnter ?registered] =>
    set (w2 := registered) end.
  assert (spawned w2 = spawned w1) as Hw2 by done.
  destruct (sendCommand_transmitted os paneId command rawMode noEnter w2)
    as (_ & _ & sent & Hsent & _ & Hout).
  rewrite Hw2 in Hsent, Hout.
  set (send := sendCommand os paneId command rawMode noEnter w2) in *.
  assert (exists n,
            (n <= length (chars command))%nat
            /\ spawned send.1
               = spawned w1
                 ++ (if truthy noEnter then
                       if includes specialKeys command then
                         [lit "tmux send-keys -t '" ++ paneId ++ lit "' " ++ command]
                       else
                         map (fun char =>
                                lit "tmux send-keys -t '" ++ paneId ++ lit "' '"
                                ++ escapeQuotes char ++ lit "'")
                           (take n (chars command))
                     else if truthy rawMode then
                       [lit "tmux send-keys -t '" ++ paneId ++ lit "' '"
                        ++ escapeQuotes command ++ lit "' Enter"]
                     else
                       [lit "tmux send-keys -t '" ++ paneId
                        ++ lit "' '__mcp_start' Enter '"
                        ++ escapeQuotes command ++ lit "' Enter"])
            /\ (send.2 = Return tt -> n = length (chars command)))
    as (n & Hn & Hshape & Hall).
  { subst send. unfold sendCommand.
    destruct (truthy noEnter);
      [destruct (includes specialKeys command)|destruct (truthy rawMode)].
    - exists (length (chars command)). by rewrite executeTmux_then_ret, Hw2.
    - destruct (forOf_executeTmux os (chars command)
                  (fun char => lit "send-keys -t '" ++ paneId ++ lit "' '"
                               ++ escapeQuotes char ++ lit "'") w2)
        as (n & Hn & Hsp & Hret).
      exists n. by rewrite Hsp, Hw2.
    - exists (length (chars command)). by rewrite executeTmux_then_ret, Hw2.
    - exists (length (chars command)). by rewrite executeTmux_then_ret, Hw2. }
  rewrite Hsent in Hshape. apply app_inv_head in Hshape.
  exists n, sent.
  split; [done|]. split; [done|].
  clearbody send. destruct send as [w3 [[]|e]]; cbn [fst snd] in *.
  - split; [done|]. split; [by auto|]. split; [by auto|apply concat_chars].
  - split; [done|]. split; [done|]. split; [done|apply concat_chars].
Qed.

Lemma executeCommand_transmission_witness :
  spawned (executeCommand unreachable (lit "c-2") 2000%float
             (lit "%1") (lit "ab") None (Some true) emptyWorld).1
  = [lit "tmux send-keys -t '%1' 'a'"]
  /\ (executeCommand unreachable (lit "c-2") 2000%float
        (lit "%1") (lit "ab") None (Some true) emptyWorld).2
     = Throw (failedToExecute (lit "no server running")).
Proof.
  assert ((executeCommand unreachable (lit "c-2") 2000%float
             (lit "%1") (lit "ab") None (Some true) emptyWorld).2
          = Throw (failedToExecute (lit "no server running"))) as Hthrown
    by (by vm_compute).
  destruct (executeCommand_transmission unreachable emptyWorld emptyWorld
              (lit "c-2") 2000%float (lit "%1") (lit "ab") None (Some true) eq_refl)
    as (n & sent & _ & Hshape & Hspawned & Hout & _).
  rewrite Hthrown in Hout.
  destruct Hout as (before & line & error_message & Hsent & Hbefore & _).
  destruct before as [|first before];
    [|destruct Hbefore as [[stdout Hfirst] _]; discriminate Hfirst].
  split; [|exact Hthrown].
  rewrite Hspawned, Hshape. rewrite Hshape in Hsent.
  destruct n as [|[|n]]; [discriminate Hsent|reflexivity|discriminate Hsent].
Defined.

(** ** Quoting *)

Lemma shellWord_escapeQuotes (s : jsstring) :
  shellWord true (escapeQuotes s ++ [39%N]) = Some s.
Proof.
  induction s as [|c s IH]; [done|].
  change (escapeQuotes (c :: s))
    with ((if (c =? 39)%N then lit "'\''" else [c]) ++ escapeQuotes s).
  destruct (c =? 39)%N eqn:E.
  - apply N.eqb_eq in E. subst c.
    change (shellWord true ((lit "'\''" ++ escapeQuotes s) ++ [39%N]))
      with (cons 39%N <$> shellWord true (escapeQuotes s ++ [39%N])).
    by rewrite IH.
  - change (shellWord true (([c] ++ escapeQuotes s) ++ [39%N]))
      with (if (c =? 39)%N then shellWord false (escapeQuotes s ++ [39%N])
            else cons c <$> shellWord true (escapeQuotes s ++ [39%N])).
    by rewrite E, IH.
Qed.

(** X7. The quoting of lines 304, 309 and 314 is sound for a POSIX shell:
    the command between single quotes, every single quote in it replaced by
    [quote backslash quote quote], is read back by the shell's quoting rules
    as one word that is the command itself, whatever characters it holds. *)
Theorem escapeQuotes_read_back_by_shell (s : jsstring) :
  shellWord false (lit "'" ++ escapeQuotes s ++ lit "'") = Some s.
Proof. apply shellWord_escapeQuotes. Qed.

(** ** White space around the gateway's output *)

Lemma trimStart_head (s : jsstring) c s' :
  trimStart s = c :: s' -> isWhiteSpace c = false.
Proof.
  induction s as [|d s IH]; [done|]. simpl.
  destruct (isWhiteSpace d) eqn:E; [done|]. by intros [= <- _].
Qed.

Lemma trimStart_suffix (s : jsstring) : exists before, s = before ++ trimStart s.
Proof.
  induction s as [|d s [before IH]]; [by exists []|]. simpl.
  destruct (isWhiteSpace d); [|by exists []].
  exists (d :: before). simpl. by rewrite <- IH.
Qed.

Lemma trim_trimmed (s : jsstring) : trimmed (trim s).
Proof.
  unfold trim, trimEnd. split.
  - intros c s' Heq.
    destruct (trimStart_suffix (rev (trimStart s))) as [before Hbefore].
    apply (f_equal (@rev N)) in Hbefore. rewrite rev_involutive, rev_app_distr, Heq in Hbefore.
    by apply (trimStart_head s c (s' ++ rev before)).
  - intros c s' Heq. apply (f_equal (@rev N)) in Heq.
    rewrite rev_involutive, rev_app_distr in Heq.
    by apply (trimStart_head _ c (rev s')) in Heq.
Qed.

Lemma trimmed_trim (s : jsstring) : trimmed s -> trim s = s.
Proof.
  intros [Hhead Hlast]. unfold trim, trimEnd.
  assert (forall t : jsstring,
            (forall c t', t = c :: t' -> isWhiteSpace c = false) -> trimStart t = t) as Hfix.
  { intros [|c t] Hc; [done|]. simpl. by rewrite (Hc c t). }
  rewrite (Hfix s Hhead). rewrite Hfix; [apply rev_involutive|].
  intros c t' Heq. apply (Hlast c (rev t')).
  apply (f_equal (@rev N)) in Heq. by rewrite rev_involutive in Heq.
Qed.

(** X8. Whatever [tmux] prints, the text [executeTmux] returns neither
    starts nor ends with white space, so trimming it again changes nothing. *)
Theorem executeTmux_output_is_trimmed
    (os : OS) (tmuxCommand : jsstring) (w w' : World) (output : jsstring) :
  executeTmux os tmuxCommand w = (w', Return output) ->
  trimmed output /\ trim output = output.
Proof.
  unfold executeTmux. destruct (os _ _) as [stdout|msg]; [|done].
  intros [= _ <-]. split; [apply trim_trimmed|apply trimmed_trim, trim_trimmed].
Qed.

Lemma executeTmux_output_is_trimmed_witness :
  trimmed (lit "bash") /\ trim (lit "bash") = lit "bash".
Proof.
  apply (executeTmux_output_is_trimmed (printing (lit "  bash ") ) (lit "display-message")
           emptyWorld
           (executeTmux (printing (lit "  bash ")) (lit "display-message") emptyWorld).1
           (lit "bash") eq_refl).
Defined.

(** ** The output of a resolved command, as the code extracts it *)

(** X9. When the record resolves and the end marker starts at or after the
    end of the start marker, the result is the trimmed text between the two
    markers, cut after its first line break and trimmed again; when that text
    has no line break, it is the result as a whole. *)
Theorem checkCommandStatus_result
    (os : OS) (w w1 : World) (commandId : jsstring) (c : CommandExecution)
    (content : jsstring) :
  activeCommands w !! commandId = Some c ->
  status c = pending ->
  truthy (rawMode c) = false ->
  capturePaneContent os (paneId c) 1000 false w = (w1, Return content) ->
  let startIndex := lastIndexOf content startMarkerText in
  let endIndex := lastIndexOf content endMarkerPrefix in
  0 <= startIndex ->
  startIndex + len startMarkerText <= endIndex ->
  digitsAfterEndMarker content endIndex <> [] ->
  let between :=
    trim (take (Z.to_nat (endIndex - (startIndex + len startMarkerText)))
            (drop (Z.to_nat (startIndex + len startMarkerText)) content)) in
  exists w' c',
    checkCommandStatus os commandId w = (w', Return (Some c'))
    /\ activeCommands w' !! commandId = Some c'
    /\ result c'
       = Some (trim (if bool_decide (LF ∈ between) then dropFirstLine between
                     else between)).
Proof.
  intros Hget Hpending Hraw Hcapture startIndex endIndex H0 Hse Hdigits between.
  destruct (checkCommandStatus_tracked os w commandId c w1 content Hget Hpending Hcapture)
    as (w' & Hrun & Htracked).
  exists w', (default c (resolve c content)).
  split; [done|]. split; [done|].
  assert (len startMarkerText = 14) as Hlen by done.
  destruct (resolve_markers c content Hraw) as [_ Hok].
  rewrite Hok by (fold startIndex endIndex; lia).
  fold startIndex endIndex.
  destruct (digitsAfterEndMarker content endIndex) as [|d ds]; [done|].
  cbn [default result set_result]. f_equal.
  unfold extractOutput. rewrite substring_after_first_line.
  destruct (lastIndexOf_lastOccurrence content endMarkerPrefix) as [[Hneg _]|[Hocc _]];
    [fold endIndex in Hneg; lia|].
  fold endIndex in Hocc. apply occursAt_bound in Hocc.
  assert (0 <= len endMarkerPrefix) by (unfold len; lia).
  rewrite (substring_between content _ endIndex) by lia.
  done.
Qed.

Lemma checkCommandStatus_result_witness :
  exists w' c',
    checkCommandStatus (printing scenario) (lit "c-1") (sampleWorld None)
    = (w', Return (Some c'))
    /\ activeCommands w' !! lit "c-1" = Some c'
    /\ result c' = Some (lit "hi").
Proof.
  apply (checkCommandStatus_result
           (printing scenario) (sampleWorld None)
           (fst (capturePaneContent (printing scenario) (lit "%1") 1000 false (sampleWorld None)))
           (lit "c-1") (sampleExecution None) (trim scenario)
           eq_refl eq_refl eq_refl eq_refl
           ltac:(by vm_compute) ltac:(by vm_compute) ltac:(by vm_compute)).
Defined.

(** ** Cleaning up twice, and thresholds that evict nothing *)

Lemma cleanupOldCommands_frame now maxAgeMinutes w :
  shellConfig (cleanupOldCommands now maxAgeMinutes w).1 = shellConfig w
  /\ spawned (cleanupOldCommands now maxAgeMinutes w).1 = spawned w.
Proof.
  unfold cleanupOldCommands, bind, readCommands.
  by destruct (cleanup_loop now (default 60%float maxAgeMinutes)
                 (map_to_list (activeCommands w)) w) as (_ & ? & ? & _).
Qed.

Lemma ltb_nan_l (x : float) : (nan <? x)%float = false.
Proof. by rewrite ltb_spec. Qed.

Lemma ltb_infinity_l (x : float) : (infinity <? x)%float = false.
Proof.
  rewrite ltb_spec. change (Prim2SF infinity) with (S754_infinity false).
  by destruct (Prim2SF x) as [[]|[]| |[] ? ?].
Qed.

(** X10. A cleanup runs no command line and leaves the shell configuration
    alone.  Repeating it with the same clock reading and threshold removes
    nothing more, and a threshold of [NaN] or [Infinity] removes nothing at
    all. *)
Theorem cleanupOldCommands_again
    (now : Date) (maxAgeMinutes : option float) (w : World) :
  let once := (cleanupOldCommands now maxAgeMinutes w).1 in
  spawned once = spawned w
  /\ shellConfig once = shellConfig w
  /\ activeCommands (cleanupOldCommands now maxAgeMinutes once).1 = activeCommands once
  /\ activeCommands (cleanupOldCommands now (Some nan) w).1 = activeCommands w
  /\ activeCommands (cleanupOldCommands now (Some infinity) w).1 = activeCommands w.
Proof.
  intros once. destruct (cleanupOldCommands_frame now maxAgeMinutes w) as [Hshell Hspawned].
  split; [done|]. split; [done|]. split; [|split].
  - apply map_eq. intros k.
    destruct (cleanupOldCommands_lookup now maxAgeMinutes once) as [_ Htwice].
    destruct (cleanupOldCommands_lookup now maxAgeMinutes w) as [_ Honce].
    cbv zeta in Htwice, Honce. fold once in Honce. rewrite Htwice, Honce.
    destruct (activeCommands w !! k) as [c|]; [|done].
    destruct (isStale now _ c) eqn:Hstale; [done|]. by rewrite Hstale.
  - apply map_eq. intros k.
    destruct (cleanupOldCommands_lookup now (Some nan) w) as [_ ->].
    destruct (activeCommands w !! k) as [c|]; [|done].
    unfold isStale. cbn [default]. by rewrite ltb_nan_l, andb_false_r.
  - apply map_eq. intros k.
    destruct (cleanupOldCommands_lookup now (Some infinity) w) as [_ ->].
    destruct (activeCommands w !! k) as [c|]; [|done].
    unfold isStale. cbn [default]. by rewrite ltb_infinity_l, andb_false_r.
Qed.

(** ** Reading back what tmux lists *)

Lemma split_none (s : jsstring) sep : sep ∉ s -> split s sep = [s].
Proof.
  induction s as [|c s IH]; [done|]. intros Hnot.
  apply not_elem_of_cons in Hnot as [Hc Hs]. simpl.
  destruct (c =? sep)%N eqn:E; [apply N.eqb_eq in E; congruence|].
  by rewrite (IH Hs).
Qed.

Lemma split_app_sep (a b : jsstring) sep :
  sep ∉ a -> split (a ++ sep :: b) sep = a :: split b sep.
Proof.
  induction a as [|c a IH]; intros Hnot.
  - simpl. by rewrite N.eqb_refl.
  - apply not_elem_of_cons in Hnot as [Hc Ha]. simpl.
    destruct (c =? sep)%N eqn:E; [apply N.eqb_eq in E; congruence|].
    by rewrite (IH Ha).
Qed.

Lemma join_cons (field next : jsstring) fields sep :
  join (field :: next :: fields) sep = field ++ sep :: join (next :: fields) sep.
Proof. done. Qed.

Lemma split_join (fields : list jsstring) sep :
  fields <> [] ->
  Forall (fun field => sep ∉ field) fields ->
  split (join fields sep) sep = fields.
Proof.
  induction fields as [|field [|next fields] IH]; intros Hne Hall; [done| |].
  - apply Forall_cons in Hall as [Hfield _]. by apply split_none.
  - apply Forall_cons in Hall as [Hfield Hrest].
    rewrite join_cons, split_app_sep by done. by rewrite IH.
Qed.

Lemma not_elem_of_join (fields : list jsstring) sep c :
  c <> sep ->
  Forall (fun field => c ∉ field) fields ->
  c ∉ join fields sep.
Proof.
  intros Hc. induction fields as [|field [|next fields] IH]; intros Hall.
  - apply not_elem_of_nil.
  - by apply Forall_cons in Hall as [? _].
  - apply Forall_cons in Hall as [Hfield Hrest]. rewrite join_cons.
    rewrite not_elem_of_app, not_elem_of_cons. auto.
Qed.

Lemma flag_plain b c : isDigit c = false -> c ∉ flag b.
Proof.
  intros Hc Hin. destruct b; apply list_elem_of_singleton in Hin; by subst c.
Qed.

Lemma isOne_flag b : isOne (Some (flag b)) = b.
Proof. by destruct b. Qed.

Lemma digits_plain (ds : jsstring) c :
  forallb isDigit ds = true -> isDigit c = false -> c ∉ ds.
Proof.
  intros Hall Hc Hin. rewrite forallb_forall in Hall.
  apply list_elem_of_In, Hall in Hin. congruence.
Qed.

Lemma takeDigits_all (ds : jsstring) :
  forallb isDigit ds = true -> takeDigits ds = ds.
Proof.
  induction ds as [|d ds IH]; [done|]. simpl.
  intros [-> Hds]%andb_true_iff. by rewrite IH.
Qed.

(** The lines of a listing are read back one by one. *)
Lemma lines_read_back {R T} (lineOf : R -> jsstring) (parse : jsstring -> T)
    (toT : R -> T) (rows : list R) :
  Forall (fun r => (LF ∉ lineOf r) /\ lineOf r <> [] /\ parse (lineOf r) = toT r) rows ->
  match join (map lineOf rows) LF with
  | [] => []
  | output => map parse (split output LF)
  end = map toT rows.
Proof.
  intros Hrows. destruct rows as [|r rows]; [done|].
  assert (split (join (map lineOf (r :: rows)) LF) LF = map lineOf (r :: rows)) as Hsplit.
  { apply split_join; [done|]. apply Forall_fmap.
    eapply Forall_impl; [exact Hrows|]. by intros ? (? & _). }
  assert (map parse (map lineOf (r :: rows)) = map toT (r :: rows)) as Hparse.
  { rewrite map_map. apply map_ext_Forall.
    eapply Forall_impl; [exact Hrows|]. by intros ? (_ & _ & ?). }
  destruct (join (map lineOf (r :: rows)) LF) as [|c output] eqn:Hjoin.
  - apply Forall_cons in Hrows as [(_ & Hne & _) _].
    cbn [map] in Hjoin. destruct (map lineOf rows).
    + done.
    + rewrite join_cons in Hjoin. by destruct (lineOf r).
  - by rewrite Hsplit, Hparse.
Qed.

Lemma sessionOfLine_sessionLine id name attached (windows : jsstring) :
  COLON ∉ id -> COLON ∉ name ->
  windows <> [] -> forallb isDigit windows = true ->
  sessionOfLine (sessionLine id name attached windows)
  = {| TmuxSession.id := id;
       TmuxSession.name := Some name;
       TmuxSession.attached := attached;
       TmuxSession.windows := number_of_Z (digitsValue windows) |}.
Proof.
  intros Hid Hname Hne Hdigits. unfold sessionOfLine, sessionLine.
  assert (parseInt10 windows = number_of_Z (digitsValue windows)) as Hparse.
  { pose proof (parseInt10_digits windows) as H.
    rewrite (takeDigits_all windows Hdigits) in H. auto. }
  rewrite split_join; [|done|].
  - change (parseInt10_of ([id; name; flag attached; windows] !! 3%nat))
      with (parseInt10 windows).
    change (isOne ([id; name; flag attached; windows] !! 2%nat))
      with (isOne (Some (flag attached))).
    by rewrite isOne_flag, Hparse.
  - repeat (apply Forall_cons; split); [done | done | by apply flag_plain
                                        | by apply digits_plain | by apply Forall_nil].
Qed.

(** X11. [listSessions] reads back what tmux lists.  When the trimmed
    output is one line per session in the format asked for, with identifiers
    and names free of colons and line breaks and the window count in decimal
    digits, the result is these sessions in order, the counts as numbers; in
    particular no output gives the empty list. *)
Theorem listSessions_reads_back
    (os : OS) (w : World) (stdout : jsstring)
    (rows : list (jsstring * jsstring * bool * jsstring)) :
  os (spawned w)
     (lit "tmux list-sessions -F '#{session_id}:#{session_name}:#{?session_attached,1,0}:#{session_windows}'")
  = Stdout stdout ->
  trim stdout
  = join (map (fun '(id, name, attached, windows) =>
                 sessionLine id name attached windows) rows) LF ->
  Forall (fun '(id, name, attached, windows) =>
            (COLON ∉ id) /\ (LF ∉ id) /\ (COLON ∉ name) /\ (LF ∉ name)
            /\ windows <> [] /\ forallb isDigit windows = true) rows ->
  (listSessions os w).2
  = Return (map (fun '(id, name, attached, windows) =>
                   {| TmuxSession.id := id;
                      TmuxSession.name := Some name;
                      TmuxSession.attached := attached;
                      TmuxSession.windows := number_of_Z (digitsValue windows) |}) rows).
Proof.
  intros Hos Htrim Hrows.
  unfold listSessions, bind, executeTmux.
  match goal with |- context [os (spawned w) ?line] =>
    change line with (lit "tmux list-sessions -F '#{session_id}:#{session_name}:#{?session_attached,1,0}:#{session_windows}'") end.
  rewrite Hos, Htrim.
  match goal with |- _ = Return (map ?toT rows) =>
    pose proof (lines_read_back
                  (fun '(id, name, attached, windows) =>
                     sessionLine id name attached windows)
                  sessionOfLine toT rows) as Hread end.
  destruct (join _ LF); cbn [ret snd]; f_equal; (rewrite <- Hread; [done|]);
    (eapply Forall_impl; [exact Hrows|]);
    intros [[[id name] attached] windows] (Hid & Hid' & Hname & Hname' & Hne & Hdigits);
    (split; [|split]);
    try (by apply sessionOfLine_sessionLine);
    try (apply not_elem_of_join; [done|];
         repeat (apply Forall_cons; split);
         [done | done | by apply flag_plain | by apply digits_plain | by apply Forall_nil]);
    unfold sessionLine; rewrite join_cons; by destruct id.
Qed.

Lemma listSessions_reads_back_witness :
  (listSessions (printing (lines ["$0:main:1:3"; "$1:work:0:12"; ""]%string)) emptyWorld).2
  = Return [ {| TmuxSession.id := lit "$0"; TmuxSession.name := Some (lit "main");
                TmuxSession.attached := true; TmuxSession.windows := 3%float |};
             {| TmuxSession.id := lit "$1"; TmuxSession.name := Some (lit "work");
                TmuxSession.attached := false; TmuxSession.windows := 12%float |} ].
Proof.
  apply (listSessions_reads_back
           (printing (lines ["$0:main:1:3"; "$1:work:0:12"; ""]%string)) emptyWorld
           (lines ["$0:main:1:3"; "$1:work:0:12"; ""]%string)
           [(lit "$0", lit "main", true, lit "3"); (lit "$1", lit "work", false, lit "12")]
           eq_refl eq_refl).
  repeat (constructor;
          [repeat split; try (apply (bool_decide_unpack _); by vm_compute); done|]).
  constructor.
Defined.

Lemma windowOfLine_windowLine sessionId id name active :
  COLON ∉ id -> COLON ∉ name ->
  windowOfLine sessionId (windowLine id name active)
  = {| TmuxWindow.id := id;
       TmuxWindow.name := Some name;
       TmuxWindow.active := active;
       TmuxWindow.sessionId := sessionId |}.
Proof.
  intros Hid Hname. unfold windowOfLine, windowLine.
  rewrite split_join; [|done|].
  - change (isOne ([id; name; flag active] !! 2%nat)) with (isOne (Some (flag active))).
    by rewrite isOne_flag.
  - repeat (apply Forall_cons; split);
      [done | done | by apply flag_plain | by apply Forall_nil].
Qed.

(** X12. [listWindows] reads back what tmux lists for a session: one
    window per line of the trimmed output, in order, each carrying the
    session identifier that was asked about, provided identifiers and names
    hold no colon and no line break; no output gives the empty list. *)
Theorem listWindows_reads_back
    (os : OS) (w : World) (sessionId stdout : jsstring)
    (rows : list (jsstring * jsstring * bool)) :
  os (spawned w)
     (lit "tmux list-windows -t '" ++ sessionId
      ++ lit "' -F '#{window_id}:#{window_name}:#{?window_active,1,0}'")
  = Stdout stdout ->
  trim stdout = join (map (fun '(id, name, active) => windowLine id name active) rows) LF ->
  Forall (fun '(id, name, active) =>
            (COLON ∉ id) /\ (LF ∉ id) /\ (COLON ∉ name) /\ (LF ∉ name)) rows ->
  (listWindows os sessionId w).2
  = Return (map (fun '(id, name, active) =>
                   {| TmuxWindow.id := id;
                      TmuxWindow.name := Some name;
                      TmuxWindow.active := active;
                      TmuxWindow.sessionId := sessionId |}) rows).
Proof.
  intros Hos Htrim Hrows.
  unfold listWindows, bind, executeTmux.
  match goal with |- context [os (spawned w) ?line] =>
    change line with (lit "tmux list-windows -t '" ++ sessionId
                      ++ lit "' -F '#{window_id}:#{window_name}:#{?window_active,1,0}'") end.
  rewrite Hos, Htrim.
  match goal with |- _ = Return (map ?toT rows) =>
    pose proof (lines_read_back
                  (fun '(id, name, active) => windowLine id name active)
                  (windowOfLine sessionId) toT rows) as Hread end.
  destruct (join _ LF); cbn [ret snd]; f_equal; (rewrite <- Hread; [done|]);
    (eapply Forall_impl; [exact Hrows|]);
    intros [[id name] active] (Hid & Hid' & Hname & Hname');
    (split; [|split]);
    try (by apply windowOfLine_windowLine);
    try (apply not_elem_of_join; [done|];
         repeat (apply Forall_cons; split);
         [done | done | by apply flag_plain | by apply Forall_nil]);
    unfold windowLine; rewrite join_cons; by destruct id.
Qed.

Lemma listWindows_reads_back_witness :
  (listWindows (printing (lines ["@0:editor:1"; "@1:logs:0"]%string)) (lit "$0") emptyWorld).2
  = Return [ {| TmuxWindow.id := lit "@0"; TmuxWindow.name := Some (lit "editor");
                TmuxWindow.active := true; TmuxWindow.sessionId := lit "$0" |};
             {| TmuxWindow.id := lit "@1"; TmuxWindow.name := Some (lit "logs");
                TmuxWindow.active := false; TmuxWindow.sessionId := lit "$0" |} ].
Proof.
  apply (listWindows_reads_back
           (printing (lines ["@0:editor:1"; "@1:logs:0"]%string)) emptyWorld (lit "$0")
           (lines ["@0:editor:1"; "@1:logs:0"]%string)
           [(lit "@0", lit "editor", true); (lit "@1", lit "logs", false)]
           eq_refl eq_refl).
  repeat (constructor;
          [repeat split; try (apply (bool_decide_unpack _); by vm_compute); done|]).
  constructor.
Defined.

Lemma paneOfLine_paneLine windowId id title currentCommand cwd active :
  BAR ∉ id -> BAR ∉ title -> BAR ∉ currentCommand -> BAR ∉ cwd ->
  paneOfLine windowId (paneLine id title currentCommand cwd active)
  = {| TmuxPane.id := id;
       TmuxPane.windowId := windowId;
       TmuxPane.active := active;
       TmuxPane.currentCommand := Some currentCommand;
       TmuxPane.cwd := Some cwd;
       TmuxPane.title := Some title |}.
Proof.
  intros Hid Htitle Hcur Hcwd. unfold paneOfLine, paneLine.
  rewrite split_join; [|done|].
  - change (isOne ([id; title; currentCommand; cwd; flag active] !! 4%nat))
      with (isOne (Some (flag active))).
    by rewrite isOne_flag.
  - repeat (apply Forall_cons; split);
      [done | done | done | done | by apply flag_plain | by apply Forall_nil].
Qed.

(** X13. [listPanes] reads back what tmux lists for a window: one pane per
    line of the trimmed output, in order, with its title, current command,
    directory and active flag, each carrying the window identifier that was
    asked about, provided no field holds a vertical bar or a line break; no
    output gives the empty list. *)
Theorem listPanes_reads_back
    (os : OS) (w : World) (windowId stdout : jsstring)
    (rows : list (jsstring * jsstring * jsstring * jsstring * bool)) :
  os (spawned w)
     (lit "tmux list-panes -t '" ++ windowId
      ++ lit "' -F '#{pane_id}|#{pane_title}|#{pane_current_command}|#{pane_current_path}|#{?pane_active,1,0}'")
  = Stdout stdout ->
  trim stdout
  = join (map (fun '(id, title, currentCommand, cwd, active) =>
                 paneLine id title currentCommand cwd active) rows) LF ->
  Forall (fun '(id, title, currentCommand, cwd, active) =>
            (BAR ∉ id) /\ (LF ∉ id) /\ (BAR ∉ title) /\ (LF ∉ title)
            /\ (BAR ∉ currentCommand) /\ (LF ∉ currentCommand)
            /\ (BAR ∉ cwd) /\ (LF ∉ cwd)) rows ->
  (listPanes os windowId w).2
  = Return (map (fun '(id, title, currentCommand, cwd, active) =>
                   {| TmuxPane.id := id;
                      TmuxPane.windowId := windowId;
                      TmuxPane.active := active;
                      TmuxPane.currentCommand := Some currentCommand;
                      TmuxPane.cwd := Some cwd;
                      TmuxPane.title := Some title |}) rows).
Proof.
  intros Hos Htrim Hrows.
  unfold listPanes, bind, executeTmux.
  match goal with |- context [os (spawned w) ?line] =>
    change line with (lit "tmux list-panes -t '" ++ windowId
                      ++ lit "' -F '#{pane_id}|#{pane_title}|#{pane_current_command}|#{pane_current_path}|#{?pane_active,1,0}'") end.
  rewrite Hos, Htrim.
  match goal with |- _ = Return (map ?toT rows) =>
    pose proof (lines_read_back
                  (fun '(id, title, currentCommand, cwd, active) =>
                     paneLine id title currentCommand cwd active)
                  (paneOfLine windowId) toT rows) as Hread end.
  destruct (join _ LF); cbn [ret snd]; f_equal; (rewrite <- Hread; [done|]);
    (eapply Forall_impl; [exact Hrows|]);
    intros [[[[id title] currentCommand] cwd] active]
      (Hid & Hid' & Htitle & Htitle' & Hcur & Hcur' & Hcwd & Hcwd');
    (split; [|split]);
    try (by apply paneOfLine_paneLine);
    try (apply not_elem_of_join; [done|];
         repeat (apply Forall_cons; split);
         [done | done | done | done | by apply flag_plain | by apply Forall_nil]);
    unfold paneLine; rewrite join_cons; by destruct id.
Qed.

Lemma listPanes_reads_back_witness :
  (listPanes (printing (lit "%1|host|bash|/home/me|1")) (lit "@0") emptyWorld).2
  = Return [ {| TmuxPane.id := lit "%1"; TmuxPane.windowId := lit "@0";
                TmuxPane.active := true; TmuxPane.currentCommand := Some (lit "bash");
                TmuxPane.cwd := Some (lit "/home/me"); TmuxPane.title := Some (lit "host") |} ].
Proof.
  apply (listPanes_reads_back
           (printing (lit "%1|host|bash|/home/me|1")) emptyWorld (lit "@0")
           (lit "%1|host|bash|/home/me|1")
           [(lit "%1", lit "host", lit "bash", lit "/home/me", true)]
           eq_refl eq_refl).
  repeat (constructor;
          [repeat split; try (apply (bool_decide_unpack _); by vm_compute); done|]).
  constructor.
Defined.

(** ** Probes and creation *)

Lemma listSessions_frame os w w' r :
  listSessions os w = (w', r) ->
  activeCommands w' = activeCommands w
  /\ exists line, spawned w' = spawned w ++ [line].
Proof.
  unfold listSessions, bind.
  match goal with |- context [executeTmux os ?args w] =>
    destruct (executeTmux os args w) as [w1 [output|e]] eqn:Hx;
    apply executeTmux_frame in Hx as (Hcmds & _ & Hspawned)
  end.
  - destruct output; intros [= <- _]; eauto.
  - intros [= <- _]; eauto.
Qed.

(** [findSessionByName] always returns. *)
Lemma findSessionByName_returns os name w :
  exists w' found,
    findSessionByName os name w = (w', Return found)
    /\ (forall session, found = Some session -> TmuxSession.name session = Some name)
    /\ length (spawned w') = S (length (spawned w)).
Proof.
  unfold findSessionByName, tryCatch, bind.
  destruct (listSessions os w) as [w1 [sessions|e]] eqn:Hlist;
    apply listSessions_frame in Hlist as (Hcmds & line & Hspawned);
    eexists _, _; (split; [reflexivity|]);
    rewrite Hspawned, length_app, Nat.add_1_r; (split; [|done]); [|done].
  intros session Hfound.
  apply find_some in Hfound as [_ Hname]. by apply bool_decide_eq_true in Hname.
Qed.

(** X14. The two probes never throw.  [isTmuxRunning] answers [true]
    exactly when its [list-sessions] command line succeeds.
    [findSessionByName] answers [null] when the listing fails, and otherwise
    the first listed session of that name, or [null] when there is none.
    Each runs one command line and leaves the tracking map alone. *)
Theorem probes_never_throw (os : OS) (name : jsstring) (w : World) :
  (exists w' running,
      isTmuxRunning os w = (w', Return running)
      /\ (running = true
          <-> exists stdout,
                os (spawned w) (lit "tmux list-sessions -F '#{session_name}'")
                = Stdout stdout)
      /\ activeCommands w' = activeCommands w
      /\ length (spawned w') = S (length (spawned w)))
  /\ (exists w' found,
        findSessionByName os name w = (w', Return found)
        /\ match (listSessions os w).2 with
           | Return sessions =>
               found = find (fun session =>
                               bool_decide (TmuxSession.name session = Some name))
                         sessions
           | Throw _ => found = None
           end
        /\ (forall session, found = Some session -> TmuxSession.name session = Some name)
        /\ activeCommands w' = activeCommands w
        /\ length (spawned w') = S (length (spawned w))).
Proof.
  split.
  - unfold isTmuxRunning, tryCatch, bind, executeTmux.
    match goal with |- context [os (spawned w) ?line] =>
      change line with (lit "tmux list-sessions -F '#{session_name}'") end.
    destruct (os (spawned w) _) as [stdout|msg]; eexists _, _;
      (split; [reflexivity|]); cbn [activeCommands spawned];
      rewrite length_app, Nat.add_1_r; repeat split; try done; eauto.
    intros [? ?]. done.
  - unfold findSessionByName, tryCatch, bind.
    destruct (listSessions os w) as [w1 [sessions|e]] eqn:Hlist;
      apply listSessions_frame in Hlist as (Hcmds & line & Hspawned);
      eexists _, _; (split; [reflexivity|]); cbn [snd];
      rewrite Hspawned, length_app, Nat.add_1_r; repeat split; try done.
    intros session Hfound.
    apply find_some in Hfound as [_ Hname]. by apply bool_decide_eq_true in Hname.
Qed.

(** X15. [createSession] throws only when its [new-session] command line
    fails, and then with that failure.  Once the session is created, a
    failure of the listing that follows is not reported: the result is the
    first listed session of that name, or [null]. *)
Theorem createSession_outcome (os : OS) (name : jsstring) (w : World) :
  let line := lit "tmux new-session -d -s " ++ [DQUOTE] ++ name ++ [DQUOTE] in
  match os (spawned w) line with
  | ExecFailed error_message =>
      (createSession os name w).2 = Throw (failedToExecute error_message)
      /\ spawned (createSession os name w).1 = spawned w ++ [line]
  | Stdout _ =>
      exists found,
        (createSession os name w).2 = Return found
        /\ (forall session, found = Some session -> TmuxSession.name session = Some name)
        /\ length (spawned (createSession os name w).1) = S (S (length (spawned w)))
  end.
Proof.
  intros line.
  set (w1 := {| activeCommands := activeCommands w; shellConfig := shellConfig w;
                spawned := spawned w ++ [line] |}).
  assert (createSession os name w
          = match os (spawned w) line with
            | Stdout _ => findSessionByName os name w1
            | ExecFailed error_message => (w1, Throw (failedToExecute error_message))
            end) as ->.
  { unfold createSession, bind at 1, executeTmux.
    match goal with |- context [os (spawned w) ?l] => change l with line end.
    by destruct (os (spawned w) line). }
  destruct (os (spawned w) line) as [stdout|msg]; [|done].
  destruct (findSessionByName_returns os name w1) as (w' & found & Hfind & Hname & Hlen).
  rewrite Hfind. exists found. split; [done|]. split; [done|].
  cbn [fst]. rewrite Hlen. cbn [spawned w1]. by rewrite length_app, Nat.add_1_r.
Qed.

(** ** Failures of the gateway *)

(** X16. When the capture of the pane fails during a status check of a
    pending record, the failure of the command line is thrown and the
    tracking map is left as it was: the record is still pending and the check
    can be repeated. *)
Theorem checkCommandStatus_capture_failure
    (os : OS) (w w1 : World) (commandId : jsstring) (c : CommandExecution) (e : Error) :
  activeCommands w !! commandId = Some c ->
  status c = pending ->
  capturePaneContent os (paneId c) 1000 false w = (w1, Throw e) ->
  checkCommandStatus os commandId w = (w1, Throw e)
  /\ activeCommands w1 = activeCommands w
  /\ activeCommands w1 !! commandId = Some c
  /\ (exists error_message, e = failedToExecute error_message).
Proof.
  intros Hget Hpending Hcapture.
  split.
  - unfold checkCommandStatus, bind, readCommands.
    rewrite Hget, Hpending. cbn [negb Status_eqb]. by rewrite Hcapture.
  - pose proof (capturePaneContent_frame os _ _ _ _ _ _ Hcapture) as Hcmds.
    split; [done|]. split; [by rewrite Hcmds|].
    unfold capturePaneContent, executeTmux in Hcapture.
    destruct (os _ _) as [stdout|msg]; [done|]. injection Hcapture as _ <-. eauto.
Qed.

Lemma checkCommandStatus_capture_failure_witness :
  (checkCommandStatus unreachable (lit "c-1") (sampleWorld None)).2
  = Throw (failedToExecute (lit "no server running"))
  /\ activeCommands (checkCommandStatus unreachable (lit "c-1") (sampleWorld None)).1
       !! lit "c-1"
     = Some (sampleExecution None).
Proof.
  destruct (checkCommandStatus_capture_failure unreachable (sampleWorld None)
              (capturePaneContent unreachable (lit "%1") 1000 false (sampleWorld None)).1
              (lit "c-1") (sampleExecution None)
              (failedToExecute (lit "no server running")) eq_refl eq_refl eq_refl)
    as (Hrun & _ & Htracked & _).
  rewrite Hrun. split; [reflexivity|exact Htracked].
Defined.

(** X17. When the shell check of [executeCommand] throws, because the pane
    runs no shell or because the query itself fails, that error is what
    [executeCommand] throws; no record is registered and no key is sent.  The
    error is the one naming the pane's command or the failure of the query. *)
Theorem executeCommand_failed_check_registers_nothing
    (os : OS) (w w1 : World) (uuid : jsstring) (now : Date)
    (paneId command : jsstring) (rawMode noEnter : option bool) (e : Error) :
  checkPaneRunsShell os paneId rawMode noEnter w = (w1, Throw e) ->
  executeCommand os uuid now paneId command rawMode noEnter w = (w1, Throw e)
  /\ activeCommands w1 = activeCommands w
  /\ spawned w1 = spawned w ++ [lit "tmux " ++ currentCommandQuery paneId]
  /\ truthy rawMode = false
  /\ truthy noEnter = false
  /\ ((exists currentCommand, e = notAShell paneId currentCommand)
      \/ (exists error_message, e = failedToExecute error_message)).
Proof.
  intros Hcheck. split.
  - unfold executeCommand, bind at 1. by rewrite Hcheck.
  - destruct (checkPaneRunsShell_frame os _ _ _ _ _ _ Hcheck) as [Hcmds _].
    split; [done|]. unfold checkPaneRunsShell in Hcheck.
    destruct (truthy rawMode), (truthy noEnter); try done. cbn [negb andb] in Hcheck.
    unfold bind in Hcheck.
    destruct (executeTmux os (currentCommandQuery paneId) w) as [w2 [cur|e2]] eqn:Hq.
    + pose proof (executeTmux_frame os _ _ _ _ Hq) as (_ & _ & Hspawned).
      destruct (negb (includes VALID_SHELLS (toLowerCase cur))); [|done].
      injection Hcheck as <- <-. repeat split; eauto.
    + pose proof (executeTmux_frame os _ _ _ _ Hq) as (_ & _ & Hspawned).
      injection Hcheck as <- <-. repeat split; [done|].
      right. unfold executeTmux in Hq.
      destruct (os _ _) as [|msg]; [done|]. injection Hq as _ <-. eauto.
Qed.

Lemma executeCommand_failed_check_registers_nothing_witness :
  executeCommand unreachable (lit "c-2") 2000%float (lit "%1") (lit "ls") None None emptyWorld
  = ({| activeCommands := ∅;
        shellConfig := {| type := bash |};
        spawned := [lit "tmux " ++ currentCommandQuery (lit "%1")] |},
     Throw (failedToExecute (lit "no server running"))).
Proof.
  destruct (executeCommand_failed_check_registers_nothing unreachable emptyWorld
              (checkPaneRunsShell unreachable (lit "%1") None None emptyWorld).1
              (lit "c-2") 2000%float (lit "%1") (lit "ls") None None
              (failedToExecute (lit "no server running")) eq_refl)
    as (Hrun & _).
  exact Hrun.
Defined.
